(** * iavoqado-web: the client-side core, embedded and verified

  The development follows the TypeScript sources:
  - [Js]        the JavaScript values the code computes with
                (UTF-16 strings, truthiness, [String.prototype.trim],
                IEEE doubles, parsed JSON);
  - [Api]       [src/lib/api.ts] ([request], [ApiError]);
  - [Auth]      the auth context ([AuthProvider], its restore effect);
  - [Chat]      [src/components/chat/ChatInterface.tsx] ([sendMessage]);
  - [Progress]  [src/components/onboarding/ProcessingStatus.tsx];
  - [Page]      [src/app/onboarding/processing/page.tsx].

  React state is passed explicitly; a promise is split at its [await] into
  the part that runs before the network call and the part that runs when it
  settles; code that can throw runs in a small state-and-exception monad. *)

From Stdlib Require Import ZArith NArith Ascii String DecimalString.
From Stdlib Require Import Uint63 Floats.PrimFloat Floats.FloatOps Floats.SpecFloat.
From stdpp Require Import base tactics option list gmap.

Set Default Proof Using "Type".
Set Warnings "-register-all".
Local Open Scope Z_scope.

(* ===================================================================== *)
(** * JavaScript values *)
(* ===================================================================== *)

Module Js.

(** A JavaScript string is a sequence of UTF-16 code units. *)
Abbreviation jsstring := (list N).

(** An ASCII literal of the source, as code units. *)
Definition lit (s : string) : list N :=
  List.map N_of_ascii (list_ascii_of_string s).

Definition str_eqb (a b : list N) : bool := bool_decide (a = b).

(** [ToBoolean] of a string: every string but the empty one is truthy. *)
Definition truthy_str (s : list N) : bool :=
  match s with [] => false | _ :: _ => true end.

(** [ToBoolean] of a value that is a string, [null] or [undefined]. *)
Definition truthy_opt (o : option (list N)) : bool :=
  match o with Some s => truthy_str s | None => false end.

(** The code units [trim] strips: ECMAScript's WhiteSpace and
    LineTerminator productions. *)
Definition is_ws (c : N) : bool :=
  ((9 <=? c) && (c <=? 13) || (c =? 32) || (c =? 160) || (c =? 5760)
   || ((8192 <=? c) && (c <=? 8202)) || (c =? 8232) || (c =? 8233)
   || (c =? 8239) || (c =? 8287) || (c =? 12288) || (c =? 65279))%N.

Fixpoint trim_start (s : list N) : list N :=
  match s with
  | c :: s' => if is_ws c then trim_start s' else s
  | [] => []
  end.

Definition trim_end (s : list N) : list N := rev (trim_start (rev s)).

(** [String.prototype.trim]. *)
Definition trim (s : list N) : list N := trim_end (trim_start s).

(** What the spec calls an empty or whitespace-only string. *)
Definition blank (s : list N) : bool := forallb is_ws s.

(** A JavaScript number is an IEEE 754 binary64. [ToBoolean] rejects the
    zeros and NaN. *)
Definition truthy_num (x : float) : bool :=
  negb (PrimFloat.eqb x 0%float) && PrimFloat.eqb x x.

(** The number of a small integer (exact below 2^53). *)
Definition num_of_Z (z : Z) : float :=
  if z <? 0 then PrimFloat.opp (PrimFloat.of_uint63 (Uint63.of_Z (- z)))
  else PrimFloat.of_uint63 (Uint63.of_Z z).

(** [Math.round] on a finite number, as the integer it denotes:
    [floor (x + 1/2)], computed exactly on mantissa and exponent.
    NaN and the infinities have no integer value. *)
Definition Math_round (x : float) : option Z :=
  match Prim2SF x with
  | S754_zero _ => Some 0
  | S754_finite s m e =>
      let n := if s then Z.neg m else Z.pos m in
      Some (if 0 <=? e then n * 2 ^ e
            else (2 * n + 2 ^ (- e)) / 2 ^ (1 - e))
  | S754_infinity _ | S754_nan => None
  end.

(** The result of [JSON.parse]. *)
Inductive json : Type :=
| JNull
| JBool (b : bool)
| JNum (x : float)
| JStr (s : list N)
| JArr (items : list json)
| JObj (fields : list (list N * json)).

(** [ToBoolean] of a parsed value. *)
Definition truthy (v : json) : bool :=
  match v with
  | JNull => false
  | JBool b => b
  | JNum x => truthy_num x
  | JStr s => truthy_str s
  | JArr _ | JObj _ => true
  end.

Fixpoint assoc (k : list N) (fields : list (list N * json)) : option json :=
  match fields with
  | [] => None
  | (k', v) :: rest => if str_eqb k k' then Some v else assoc k rest
  end.

(** The property read [v.k] on a parsed value, for a key [k] that no
    built-in prototype defines and that is not an array index (as [error]
    and [message], the two keys [request] reads).  [None] in the result is
    [undefined]; reading a property of [null] throws a TypeError, which is
    the outer [None]. *)
Definition get_prop (v : json) (k : list N) : option (option json) :=
  match v with
  | JNull => None
  | JObj fields => Some (assoc k fields)
  | _ => Some None
  end.

(** [x || d] where [x] is the outcome of a property read. *)
Definition or_else (x : option json) (d : json) : json :=
  match x with
  | Some v => if truthy v then v else d
  | None => d
  end.

Section Conversion.
(** [Number::toString], which the development leaves to the platform. *)
Variable Number_toString : float -> list N.

(** [ToString] of a parsed value; [None] is the TypeError it throws.  A
    string is itself.  An array is converted by [Array.prototype.join]:
    its elements converted in turn, [null] to the empty string, and
    separated by commas.  An object is converted by the [toString] it
    inherits, unless it has a member of that name of its own: no parsed
    value is callable, and the inherited [valueOf] returns the object, so
    [OrdinaryToPrimitive] throws. *)
Fixpoint ToString (v : json) : option (list N) :=
  match v with
  | JNull => Some (lit "null")
  | JBool b => Some (if b then lit "true" else lit "false")
  | JNum x => Some (Number_toString x)
  | JStr s => Some s
  | JArr items =>
      (fix join (l : list json) : option (list N) :=
         match l with
         | [] => Some []
         | x :: rest =>
             match (match x with JNull => Some [] | _ => ToString x end) with
             | None => None
             | Some first =>
                 match rest with
                 | [] => Some first
                 | _ :: _ =>
                     match join rest with
                     | None => None
                     | Some others => Some (first ++ lit "," ++ others)
                     end
                 end
             end
         end) items
  | JObj fields =>
      match assoc (lit "toString") fields with
      | Some _ => None
      | None => Some (lit "[object Object]")
      end
  end.

End Conversion.

End Js.

Export Js.

(* ===================================================================== *)
(** * A state-and-exception monad for code that throws *)
(* ===================================================================== *)

Module Eff.

(** A computation over a store [S] that returns an [A] or throws an [E]. *)
Definition M (S E A : Type) : Type := S -> (E + A) * S.

Section Ops.
Context {S E : Type}.

Definition ret {A} (a : A) : M S E A := fun s => (inr a, s).

Definition bind {A B} (m : M S E A) (k : A -> M S E B) : M S E B :=
  fun s => match m s with
           | (inr a, s') => k a s'
           | (inl e, s') => (inl e, s')
           end.

Definition throw {A} (e : E) : M S E A := fun s => (inl e, s).

Definition get : M S E S := fun s => (inr s, s).
Definition modify (f : S -> S) : M S E unit := fun s => (inr tt, f s).

(** [try { m } catch (e) { h e }], and a promise's [.catch(h)]. *)
Definition catch {A} (m : M S E A) (h : E -> M S E A) : M S E A :=
  fun s => match m s with
           | (inl e, s') => h e s'
           | r => r
           end.

(** [try { m } finally { f }], and a promise's [.finally(f)]: [f] runs
    on both outcomes and keeps the outcome of [m] unless it throws. *)
Definition finally {A} (m : M S E A) (f : M S E unit) : M S E A :=
  fun s => match m s with
           | (r, s') => match f s' with
                        | (inr _, s'') => (r, s'')
                        | (inl e, s'') => (inl e, s'')
                        end
           end.
End Ops.

#[global] Instance eff_ret {S E} : MRet (M S E) := fun A a => ret a.
#[global] Instance eff_bind {S E} : MBind (M S E) := fun A B k m => bind m k.

End Eff.

(* ===================================================================== *)
(** * The gateway client: src/lib/api.ts *)
(* ===================================================================== *)

Module Api.

(** [class ApiError extends Error]: [status] and [code] are the
    constructor's arguments as they are, [code] whatever value the body
    held; [message] is the string that the constructor of [Error] makes,
    by [ToString], of the value handed to it. *)
Record ApiError : Type := mkApiError {
  err_status : Z;
  err_code : json;
  err_message : list N
}.

(** What a gateway operation can throw. *)
Inductive exn : Type :=
| ThrowApiError (e : ApiError)   (* thrown by [request] on a non-2xx status *)
| ThrowSyntaxError               (* [response.json()] rejected *)
| ThrowTypeError                 (* a property of [null] was read, or a
                                    value could not be made a string *)
| ThrowNetworkError              (* [fetch] itself rejected *)
| ThrowOther (v : json).         (* a thrown value that is not an [Error] *)

(** [error instanceof Error]. *)
Definition instanceof_Error (e : exn) : bool :=
  match e with ThrowOther _ => false | _ => true end.

(** The body handed to [fetch]. *)
Inductive body : Type :=
| NoBody
| JsonText (s : list N)      (* the result of [JSON.stringify] *)
| FormData (files : list (list N)).

(** [RequestOptions]: the fields [request] looks at. *)
Record RequestOptions : Type := mkOptions {
  opt_token : option (list N);
  opt_method : option (list N);
  opt_headers : option (gmap (list N) (list N));
  opt_body : body
}.

(** The call [fetch(url, {...fetchOptions, headers})]. *)
Record FetchCall : Type := mkFetchCall {
  call_url : list N;
  call_method : option (list N);
  call_headers : gmap (list N) (list N);
  call_body : body
}.

(** An HTTP response: its status, and what [response.json()] settles to
    ([None] when the body is not valid JSON). *)
Record Response : Type := mkResponse {
  status : Z;
  parsed : option json
}.

(** [response.ok]: the status is in the range 200-299. *)
Definition ok (r : Response) : bool := (200 <=? status r) && (status r <=? 299).

(** The network: what [fetch] settles to for a call ([None]: it rejects). *)
Abbreviation network := (FetchCall -> option Response).

Section Request.
Variable API_BASE : list N.
(** [Number::toString] of the platform, which [new ApiError] consults for a
    message that is or holds a number. *)
Variable Number_toString : float -> list N.

(** Lines 28-43: the headers of the call. *)
Definition request_headers (options : RequestOptions) : gmap (list N) (list N) :=
  let headers : gmap (list N) (list N) := ∅ in
  let headers :=
    match opt_headers options with
    | Some existing => existing ∪ headers     (* Object.assign *)
    | None => headers
    end in
  let headers :=
    match opt_token options with
    | Some token =>
        if truthy_str token
        then <[lit "Authorization" := lit "Bearer " ++ token]> headers
        else headers
    | None => headers
    end in
  match opt_body options with
  | FormData _ => headers
  | _ => <[lit "Content-Type" := lit "application/json"]> headers
  end.

(** Lines 45-48: the call handed to [fetch]. *)
Definition call_of (endpoint : list N) (options : RequestOptions) : FetchCall :=
  {| call_url := API_BASE ++ endpoint;
     call_method := opt_method options;
     call_headers := request_headers options;
     call_body := opt_body options |}.

(** [new ApiError(status, code, message)] (lines 11-20): [super(message)]
    converts the message, which is never [undefined] here, to a string and
    throws if it cannot. *)
Definition new_ApiError (status : Z) (code message : json) : exn :=
  match ToString Number_toString message with
  | Some text =>
      ThrowApiError {| err_status := status; err_code := code;
                       err_message := text |}
  | None => ThrowTypeError
  end.

(** [async function request<T>(endpoint, options)]: [inr data] is the value
    the promise resolves to, [inl e] the value it rejects with. *)
Definition request (net : network) (endpoint : list N) (options : RequestOptions)
  : exn + json :=
  match net (call_of endpoint options) with
  | None => inl ThrowNetworkError
  | Some response =>
      match parsed response with
      | None => inl ThrowSyntaxError
      | Some data =>
          if negb (ok response) then
            match get_prop data (lit "error") with
            | None => inl ThrowTypeError
            | Some e =>
                match get_prop data (lit "message") with
                | None => inl ThrowTypeError
                | Some m =>
                    inl (new_ApiError (status response)
                           (or_else e (JStr (lit "UnknownError")))
                           (or_else m (JStr (lit "An error occurred"))))
                end
            end
          else inr data
      end
  end.

End Request.

End Api.

(* ===================================================================== *)
(** * The session store: the auth context (AuthProvider) *)
(* ===================================================================== *)

Module Auth.
Import Eff Api.

Record User : Type := mkUser {
  user_id : list N;
  user_email : list N;
  user_name : list N
}.

(** What [authApi.me] resolves to. *)
Record MeData : Type := mkMeData {
  me_user : User;
  me_organization : json
}.

(** The four [useState] cells of [AuthProvider]. *)
Record Session : Type := mkSession {
  user : option User;
  organization : option json;
  token : option (list N);
  isLoading : bool
}.

(** The browser's [localStorage] and the provider's state. *)
Record World : Type := mkWorld {
  localStorage : gmap (list N) (list N);
  session : Session
}.

Definition TOKEN_KEY : list N := lit "iavoqado_token".

(** The state of a freshly mounted provider. *)
Definition initial : Session :=
  {| user := None; organization := None; token := None; isLoading := true |}.

Definition setUser (u : option User) : M World exn unit :=
  modify (fun w => {| localStorage := localStorage w;
                      session := {| user := u;
                                    organization := organization (session w);
                                    token := token (session w);
                                    isLoading := isLoading (session w) |} |}).

Definition setOrganization (o : option json) : M World exn unit :=
  modify (fun w => {| localStorage := localStorage w;
                      session := {| user := user (session w);
                                    organization := o;
                                    token := token (session w);
                                    isLoading := isLoading (session w) |} |}).

Definition setToken (t : option (list N)) : M World exn unit :=
  modify (fun w => {| localStorage := localStorage w;
                      session := {| user := user (session w);
                                    organization := organization (session w);
                                    token := t;
                                    isLoading := isLoading (session w) |} |}).

Definition setIsLoading (b : bool) : M World exn unit :=
  modify (fun w => {| localStorage := localStorage w;
                      session := {| user := user (session w);
                                    organization := organization (session w);
                                    token := token (session w);
                                    isLoading := b |} |}).

Definition getItem (k : list N) : M World exn (option (list N)) :=
  w ← get; mret (localStorage w !! k).

Definition setItem (k v : list N) : M World exn unit :=
  modify (fun w => {| localStorage := <[k := v]> (localStorage w);
                      session := session w |}).

Definition removeItem (k : list N) : M World exn unit :=
  modify (fun w => {| localStorage := delete k (localStorage w);
                      session := session w |}).

(** A promise that has settled: fulfilled with [inr a] or rejected with
    [inl e]. *)
Definition settled {A} (outcome : exn + A) : M World exn A :=
  match outcome with
  | inr a => mret a
  | inl e => throw e
  end.

(** The restore effect up to the call of [authApi.me] (lines 37-41 and
    56-58): [Some storedToken] is the call it leaves pending, [None] means
    that no call was made. *)
Definition restore_begin : M World exn (option (list N)) :=
  storedToken ← getItem TOKEN_KEY;
  if truthy_opt storedToken
  then mret storedToken
  else (setIsLoading false;; mret None).

(** The rest of the effect, once [authApi.me(storedToken)] has settled
    (lines 42-55): [.then(...).catch(...).finally(...)]. *)
Definition restore_settle (storedToken : list N) (outcome : exn + MeData)
  : M World exn unit :=
  finally
    (catch
       (data ← settled outcome;
        setToken (Some storedToken);;
        setUser (Some (me_user data));;
        setOrganization (Some (me_organization data)))
       (fun _ =>
          removeItem TOKEN_KEY;;
          setToken None;;
          setUser None;;
          setOrganization None))
    (setIsLoading false).

(** The whole effect against a gateway whose "who am I" operation answers
    [me]. *)
Definition restore (me : list N -> exn + MeData) : M World exn unit :=
  pending ← restore_begin;
  match pending with
  | Some storedToken => restore_settle storedToken (me storedToken)
  | None => mret tt
  end.

(** [logout] (lines 81-86). *)
Definition logout : M World exn unit :=
  removeItem TOKEN_KEY;;
  setToken None;;
  setUser None;;
  setOrganization None.

End Auth.

(* ===================================================================== *)
(** * The conversation session: src/components/chat/ChatInterface.tsx *)
(* ===================================================================== *)

Module Chat.
Import Eff Api.

Inductive role : Type := RoleUser | RoleAssistant.

Record Tokens : Type := mkTokens { input_tokens : float; output_tokens : float }.

(** The [error] text of a message: [error.message] of the [Error] caught,
    or a literal. *)
Inductive error_text : Type :=
| MessageOf (e : exn)
| Literal (s : list N).

(** [DisplayMessage]. *)
Record DisplayMessage : Type := mkMessage {
  msg_id : option (list N);
  msg_role : role;
  content : list N;
  sql : option (list N);
  data : option (list json);
  error : option error_text;
  timestamp : list N;
  tokens : option Tokens;
  costUsd : option float;
  source : option (list N)
}.

(** [ChatResponse], what [chatApi.ask] resolves to. *)
Record ChatResponse : Type := mkChatResponse {
  success : bool;
  answer : list N;
  r_sql : option (list N);
  r_data : option (list json);
  confidence : option float;
  r_conversationId : list N;
  r_tokens : option Tokens;
  r_costUsd : option float;
  r_source : option (list N)
}.

(** A call made to one of the parent's callbacks (both are optional props;
    a call is made when the parent provides them). *)
Inductive callback : Type :=
| ConversationCreated (id : list N)
| MessageSent.

(** The state cells of [ChatInterface], and the callback calls made so far. *)
Record State : Type := mkState {
  messages : list DisplayMessage;
  input : list N;
  isLoading : bool;
  currentConversationId : option (list N);
  calls : list callback
}.

(** The call [chatApi.ask(token, question, currentConversationId)] left
    pending by [sendMessage], with the conversation identifier its closure
    captured. *)
Record AskCall : Type := mkAskCall {
  ask_question : list N;
  ask_conversationId : option (list N)
}.

Definition FALLBACK : list N :=
  lit "Lo siento, ocurrio un error al procesar tu pregunta. Por favor intenta de nuevo.".

Definition appendMessage (m : DisplayMessage) : M State exn unit :=
  modify (fun s => {| messages := messages s ++ [m];
                      input := input s;
                      isLoading := isLoading s;
                      currentConversationId := currentConversationId s;
                      calls := calls s |}).

Definition setInput (v : list N) : M State exn unit :=
  modify (fun s => {| messages := messages s;
                      input := v;
                      isLoading := isLoading s;
                      currentConversationId := currentConversationId s;
                      calls := calls s |}).

Definition setIsLoading (b : bool) : M State exn unit :=
  modify (fun s => {| messages := messages s;
                      input := input s;
                      isLoading := b;
                      currentConversationId := currentConversationId s;
                      calls := calls s |}).

Definition setCurrentConversationId (c : option (list N)) : M State exn unit :=
  modify (fun s => {| messages := messages s;
                      input := input s;
                      isLoading := isLoading s;
                      currentConversationId := c;
                      calls := calls s |}).

Definition notify (c : callback) : M State exn unit :=
  modify (fun s => {| messages := messages s;
                      input := input s;
                      isLoading := isLoading s;
                      currentConversationId := currentConversationId s;
                      calls := calls s ++ [c] |}).

Definition settled {A} (outcome : exn + A) : M State exn A :=
  match outcome with
  | inr a => mret a
  | inl e => throw e
  end.

Definition userMessage (question now : list N) : DisplayMessage :=
  {| msg_id := None; msg_role := RoleUser; content := question;
     sql := None; data := None; error := None; timestamp := now;
     tokens := None; costUsd := None; source := None |}.

Definition assistantMessage (response : ChatResponse) (now : list N) : DisplayMessage :=
  {| msg_id := None; msg_role := RoleAssistant; content := answer response;
     sql := r_sql response; data := r_data response; error := None;
     timestamp := now; tokens := r_tokens response;
     costUsd := r_costUsd response; source := r_source response |}.

Definition errorMessage (e : exn) (now : list N) : DisplayMessage :=
  {| msg_id := None; msg_role := RoleAssistant; content := FALLBACK;
     sql := None; data := None;
     error := Some (if instanceof_Error e then MessageOf e
                    else Literal (lit "Error desconocido"));
     timestamp := now; tokens := None; costUsd := None; source := None |}.

(** [sendMessage] up to its [await] (lines 78-91).  [None]: the guard of
    line 78 returned and nothing was done; otherwise the state after the
    three setters and the call left pending.  [now] is the clock. *)
Definition sendMessage_begin (question now : list N) (s : State)
  : option (State * AskCall) :=
  if negb (truthy_str (trim question)) || isLoading s then None
  else
    Some ({| messages := messages s ++ [userMessage question now];
             input := [];
             isLoading := true;
             currentConversationId := currentConversationId s;
             calls := calls s |},
          {| ask_question := question;
             ask_conversationId := currentConversationId s |}).

(** [sendMessage] from the moment the call settles (lines 91-122). *)
Definition sendMessage_settle (call : AskCall) (outcome : exn + ChatResponse)
    (now : list N) : M State exn unit :=
  finally
    (catch
       (response ← settled outcome;
        (if negb (truthy_opt (ask_conversationId call))
            && truthy_str (r_conversationId response)
         then setCurrentConversationId (Some (r_conversationId response));;
              notify (ConversationCreated (r_conversationId response))
         else mret tt);;
        appendMessage (assistantMessage response now);;
        notify MessageSent)
       (fun error => appendMessage (errorMessage error now)))
    (setIsLoading false).

(** One invocation of [sendMessage] against a backend answering [ask], with
    nothing else touching the state while the call is pending. *)
Definition sendMessage (ask : AskCall -> exn + ChatResponse)
    (question t0 t1 : list N) (s : State) : State :=
  match sendMessage_begin question t0 s with
  | None => s
  | Some (s1, call) => snd (sendMessage_settle call (ask call) t1 s1)
  end.

(** A persisted message, [ConversationMessage]. *)
Record ConversationMessage : Type := mkConversationMessage {
  cm_id : list N;
  cm_role : role;
  cm_content : list N;
  cm_sql : option (list N);
  cm_data : option (list json);
  cm_source : option (list N);
  cm_tokens : Tokens;
  cm_costUsd : float;
  cm_createdAt : list N
}.

(** [x || undefined] on an optional string. *)
Definition or_undefined (x : option (list N)) : option (list N) :=
  if truthy_opt x then x else None.

(** The effect that follows the props (lines 50-68). *)
Definition hydrate (conversationId : option (list N))
    (initialMessages : list ConversationMessage) (s : State) : State :=
  {| messages :=
       List.map (fun m => {| msg_id := Some (cm_id m);
                             msg_role := cm_role m;
                             content := cm_content m;
                             sql := or_undefined (cm_sql m);
                             data := cm_data m;
                             error := None;
                             timestamp := cm_createdAt m;
                             tokens := Some (cm_tokens m);
                             costUsd := Some (cm_costUsd m);
                             source := or_undefined (cm_source m) |})
                initialMessages;
     input := input s;
     isLoading := isLoading s;
     currentConversationId := conversationId;
     calls := calls s |}.

End Chat.

(* ===================================================================== *)
(** * The progress card: src/components/onboarding/ProcessingStatus.tsx *)
(* ===================================================================== *)

Module Progress.

Record StageInfo : Type := mkStageInfo {
  title : list N;
  description : list N;
  estimatedMinutes : float
}.

Record Counters : Type := mkCounters {
  current : float;
  total : float;
  percentage : float
}.

(** [error?: string | { stage?, message?, retryable? }]. *)
Inductive error_value : Type :=
| ErrorString (s : list N)
| ErrorObject (stage : option (list N)) (message : option (list N))
              (retryable : option bool).

Record ClarificationQuestion : Type := mkQuestion {
  q_id : list N;
  q_type : list N;
  q_question : list N;
  q_importance : list N
}.

Record ClarificationState : Type := mkClarification {
  needed : bool;
  reason : list N;
  questions : list ClarificationQuestion;
  answeredCount : float;
  pendingCount : float
}.

Record ValidationError : Type := mkValidationError {
  fileId : list N;
  fileName : list N;
  errorType : list N;
  v_message : list N;
  suggestion : list N
}.

Record ValidationWarning : Type := mkValidationWarning {
  w_fileId : list N;
  w_fileName : list N;
  warningType : list N;
  w_message : list N
}.

(** [ProcessingStatus] of api.ts: one answer of the status endpoint. *)
Record ProcessingStatus : Type := mkStatus {
  hasProcessing : bool;
  stage : option (list N);
  stageInfo : option StageInfo;
  progress : option Counters;
  qualityScore : option float;
  error : option error_value;
  clarification : option ClarificationState;
  validationErrors : option (list ValidationError);
  validationWarnings : option (list ValidationWarning)
}.

(** [status.stage === name]. *)
Definition stage_is (s : ProcessingStatus) (name : string) : bool :=
  bool_decide (stage s = Some (lit name)).

(** [ToBoolean (status.error)]. *)
Definition has_error (s : ProcessingStatus) : bool :=
  match error s with
  | Some (ErrorString m) => truthy_str m
  | Some (ErrorObject _ _ _) => true
  | None => false
  end.

Definition stageOrder : list (list N) :=
  [ lit "uploading"; lit "pre_validation"; lit "analyzing_structure";
    lit "awaiting_confirmation"; lit "processing_data"; lit "semantic_analysis";
    lit "needs_clarification"; lit "validating_quality";
    lit "generating_examples"; lit "ready" ].

(** [Array.prototype.indexOf] on an array of strings, scanning from [i]. *)
Fixpoint indexOf_from (x : list N) (l : list (list N)) (i : Z) : Z :=
  match l with
  | [] => -1
  | y :: l' => if str_eqb y x then i else indexOf_from x l' (i + 1)
  end.

Definition indexOf (l : list (list N)) (x : list N) : Z := indexOf_from x l 0.

(** Line 98. *)
Definition currentStageIndex (s : ProcessingStatus) : Z :=
  match stage s with
  | Some name => if truthy_str name then indexOf stageOrder name else 0
  | None => 0
  end.

(** Line 99, in binary64 as the code computes it. *)
Definition overallProgress (s : ProcessingStatus) : float :=
  ((num_of_Z (currentStageIndex s) + 1)
   / num_of_Z (Z.of_nat (length stageOrder)) * 100)%float.

(** Lines 103-105. *)
Definition errorMessage (e : error_value) : list N :=
  match e with
  | ErrorString s => s
  | ErrorObject _ (Some m) _ => if truthy_str m then m else lit "Error desconocido"
  | ErrorObject _ None _ => lit "Error desconocido"
  end.

(** One row of the stage list (lines 168-202). *)
Record StageRow : Type := mkRow {
  row_stage : list N;
  isComplete : bool;
  isCurrent : bool;
  isPending : bool
}.

Fixpoint stage_rows (s : ProcessingStatus) (stages : list (list N)) (index : Z)
  : list StageRow :=
  match stages with
  | [] => []
  | name :: rest =>
      {| row_stage := name;
         isComplete := index <? currentStageIndex s;
         isCurrent := bool_decide (stage s = Some name);
         isPending := currentStageIndex s <? index |}
      :: stage_rows s rest (index + 1)
  end.

(** What the component returns.  The error card's button is bound to
    [onError]; the progress card shows the rounded overall percentage, the
    overall bar, and, when the status has counters, their own bar. *)
Inductive card : Type :=
| ErrorCard (message : list N)
| ProgressCard (overallText : option Z) (overallBar : float)
               (stepText : option (float * float)) (stepBar : option float)
               (rows : list StageRow).

Definition progress_card (s : ProcessingStatus) : card :=
  ProgressCard (Math_round (overallProgress s)) (overallProgress s)
    (option_map (fun c => (current c, total c)) (progress s))
    (option_map percentage (progress s))
    (stage_rows s (removelast stageOrder) 0).

Definition render (s : ProcessingStatus) : card :=
  match error s with
  | Some e => if has_error s then ErrorCard (errorMessage e) else progress_card s
  | None => progress_card s
  end.

(** The effect of lines 88-96 runs when the component mounts and when
    [status.stage] changes ([onComplete] and [onClarificationNeeded] are
    [useCallback] values that never change).  Whether a run of it calls
    [onComplete], and whether it calls [onClarificationNeeded] (an optional
    prop, [provided] or not). *)
Definition calls_onComplete (s : ProcessingStatus) : bool :=
  stage_is s "ready".

Definition calls_onClarificationNeeded (s : ProcessingStatus) (provided : bool)
  : bool :=
  stage_is s "needs_clarification" && provided.

End Progress.

(* ===================================================================== *)
(** * The processing page: src/app/onboarding/processing/page.tsx *)
(* ===================================================================== *)

Module Page.
Import Api Progress.

(** What the page does that the outside can see. *)
Inductive action : Type :=
| Fetch            (* [onboardingApi.getProcessingStatus(token)] is called *)
| Completed        (* [handleComplete], the [onComplete] of the card *)
| ErrorCallback.   (* [handleError], the [onError] of the card *)

#[global] Instance action_eq_dec : EqDecision action.
Proof. solve_decision. Defined.

(** The polling effect of lines 24-62, as the run of it that is alive. *)
Inductive poller_state : Type :=
| Off        (* the body returned at line 25 or 27, or the run was cleaned up *)
| InFlight   (* [pollStatus] awaits the status, [isMounted] is true *)
| Waiting    (* [setTimeout(pollStatus, POLL_INTERVAL)] is armed *)
| Idle.      (* the run is alive with nothing pending *)

#[global] Instance poller_eq_dec : EqDecision poller_state.
Proof. solve_decision. Defined.

Definition POLL_INTERVAL : Z := 2000.

(** The page: its props and state cells, the live run of the polling
    effect with the dependencies it last ran for ([None] before the first
    commit), the mounted [ProcessingStatus] with the [status.stage] its
    effect last ran for ([None] when it is not mounted), and the actions so
    far. *)
Record Page : Type := mkPage {
  token : option (list N);
  status : option ProcessingStatus;
  error : option (list N);
  showClarification : bool;
  poller : poller_state;
  effectDeps : option bool;
  child : option (option (list N));
  trace : list action
}.

Definition with_child (c : option (option (list N))) (p : Page) : Page :=
  {| token := token p; status := status p; error := error p;
     showClarification := showClarification p; poller := poller p;
     effectDeps := effectDeps p; child := c; trace := trace p |}.

Definition with_poller (x : poller_state) (p : Page) : Page :=
  {| token := token p; status := status p; error := error p;
     showClarification := showClarification p; poller := x;
     effectDeps := effectDeps p; child := child p; trace := trace p |}.

Definition with_effectDeps (d : option bool) (p : Page) : Page :=
  {| token := token p; status := status p; error := error p;
     showClarification := showClarification p; poller := poller p;
     effectDeps := d; child := child p; trace := trace p |}.

Definition with_showClarification (b : bool) (p : Page) : Page :=
  {| token := token p; status := status p; error := error p;
     showClarification := b; poller := poller p;
     effectDeps := effectDeps p; child := child p; trace := trace p |}.

Definition emit (a : list action) (p : Page) : Page :=
  {| token := token p; status := status p; error := error p;
     showClarification := showClarification p; poller := poller p;
     effectDeps := effectDeps p; child := child p; trace := trace p ++ a |}.

(** [status.validationErrors && status.validationErrors.length > 0]. *)
Definition has_validation_errors (s : ProcessingStatus) : bool :=
  match validationErrors s with
  | Some (_ :: _) => true
  | _ => false
  end.

(** Line 210: the cancel button shows while processing. *)
Definition cancel_button (s : ProcessingStatus) : bool :=
  negb (stage_is s "ready") && negb (has_error s)
  && negb (stage_is s "needs_clarification").

(** What the page renders (lines 123-237). *)
Inductive view : Type :=
| LoginPrompt
| TransportError (message : list N)
| ValidationErrorsView (errors : list ValidationError)
                       (warnings : option (list ValidationWarning))
| ClarificationView (c : ClarificationState)
| ProgressView (s : ProcessingStatus) (cancel : bool)
| Connecting.

Definition render (p : Page) : view :=
  if negb (truthy_opt (token p)) then LoginPrompt
  else if truthy_opt (error p) then TransportError (default [] (error p))
  else
    match status p with
    | Some s =>
        match validationErrors s with
        | Some ((_ :: _) as errors) =>
            ValidationErrorsView errors (validationWarnings s)
        | _ =>
            match showClarification p, clarification s with
            | true, Some c => ClarificationView c
            | _, _ => ProgressView s (cancel_button s)
            end
        end
    | None => Connecting
    end.

(** The card that a view keeps mounted, by the stage its effect ran for. *)
Definition child_of (v : view) : option (option (list N)) :=
  match v with
  | ProgressView s _ => Some (stage s)
  | _ => None
  end.

(** [ProcessingStatus] is mounted exactly when the page renders the progress
    view, and its effect runs on mount and when [status.stage] has changed:
    the status the effect runs for in the commit of [p], if it runs. *)
Definition child_fires (p : Page) : option ProcessingStatus :=
  match render p with
  | ProgressView s _ =>
      if bool_decide (child p = Some (stage s)) then None else Some s
  | _ => None
  end.

(** Whether that run of the effect asks for the clarification, and whether
    it completes. *)
Definition asks (p : Page) : bool :=
  match child_fires p with
  | Some s => calls_onClarificationNeeded s true
  | None => false
  end.

Definition completes (p : Page) : bool :=
  match child_fires p with
  | Some s => calls_onComplete s
  | None => false
  end.

(** Whether the card's effect runs for a status that has just arrived: the
    card is shown, and was not already showing that stage. *)
Definition card_runs (p : Page) (r : ProcessingStatus) : bool :=
  negb (has_validation_errors r)
  && negb (bool_decide (child p = Some (stage r))).

(** One commit, the children first.  The boolean tells whether the card's
    effect called [onClarificationNeeded], that is
    [setShowClarification(true)] (lines 74-76), which React applies after
    the effects of this commit. *)
Definition run_child (p : Page) : Page * bool :=
  match child_fires p with
  | Some s =>
      (emit (if calls_onComplete s then [Completed] else [])
            (with_child (child_of (render p)) p),
       calls_onClarificationNeeded s true)
  | None => (with_child (child_of (render p)) p, false)
  end.

(** Then the page's own effect, if [showClarification] differs from the
    value it last ran for (the token never changes while the page is
    mounted): the cleanup of lines 58-61 ends the previous run, and the body
    either returns early or calls [pollStatus()]. *)
Definition run_poll_effect (p : Page) : Page :=
  if bool_decide (effectDeps p = Some (showClarification p)) then p
  else
    let p' := with_effectDeps (Some (showClarification p)) p in
    if negb (truthy_opt (token p)) || showClarification p
    then with_poller Off p'
    else emit [Fetch] (with_poller InFlight p').

(** Whether the commit of [p] runs the body of the polling effect up to
    its call of [pollStatus()]. *)
Definition starts_poll (p : Page) : bool :=
  negb (bool_decide (effectDeps p = Some (showClarification p)))
  && truthy_opt (token p) && negb (showClarification p).

Definition commit_once (p : Page) : Page * bool :=
  let (p1, wants_clarification) := run_child p in
  (run_poll_effect p1, wants_clarification).

(** The commits that follow one state change.  React runs the effects of a
    commit children first and applies a state change made inside an effect
    only after all of them, in a render of its own: so the page's effect
    still runs for the [showClarification] of the first render, and a second
    render and commit follow when the card's effect has changed it. *)
Definition commit (p : Page) : Page :=
  let (p1, wants_clarification) := commit_once p in
  if wants_clarification && negb (showClarification p1)
  then fst (commit_once (with_showClarification true p1))
  else p1.

(** The page as it mounts, after its first commit. *)
Definition mount (tok : option (list N)) : Page :=
  commit {| token := tok; status := None; error := None;
            showClarification := false; poller := Off; effectDeps := None;
            child := None; trace := [] |}.

(** Lines 40-43. *)
Definition shouldContinuePolling (result : ProcessingStatus) : bool :=
  negb (stage_is result "ready")
  && negb (stage_is result "needs_clarification")
  && negb (has_error result).

(** The continuation of [pollStatus] after a successful [await], under
    [isMounted] (lines 35-47). *)
Definition on_status (result : ProcessingStatus) (p : Page) : Page :=
  commit {| token := token p; status := Some result; error := None;
            showClarification := showClarification p;
            poller := if shouldContinuePolling result then Waiting else Idle;
            effectDeps := effectDeps p; child := child p; trace := trace p |}.

(** Its [catch] branch (lines 49-53); [message] is the text line 51
    computes from the thrown value. *)
Definition on_failure (message : list N) (p : Page) : Page :=
  commit {| token := token p; status := status p; error := Some message;
            showClarification := showClarification p; poller := Idle;
            effectDeps := effectDeps p; child := child p; trace := trace p |}.

(** The timer calls [pollStatus] again. *)
Definition on_timer (p : Page) : Page := emit [Fetch] (with_poller InFlight p).

(** [setShowClarification(false)] (lines 89 and 109): React re-renders only
    if the state changes. *)
Definition resume (p : Page) : Page :=
  if showClarification p then commit (with_showClarification false p) else p.

(** What [submitClarificationAnswers] and [skipClarification] resolve to:
    the fields the handlers read. *)
Record SubmitResult : Type := mkSubmitResult {
  submit_success : bool;
  improved : bool
}.

Record SkipResult : Type := mkSkipResult {
  skip_success : bool;
  warning : option (list N)
}.

(** What happens to a mounted page. *)
Inductive event : Type :=
| StatusArrived (result : ProcessingStatus)
| StatusFailed (message : list N)
| TimerFired
| SubmitSettled (outcome : exn + SubmitResult)
| SkipSettled (outcome : exn + SkipResult)
| RetryClicked.

(** The awaited call of a clarification handler resolved with success. *)
Definition resolves_clarification (e : event) : bool :=
  match e with
  | SubmitSettled (inr r) => submit_success r
  | SkipSettled (inr r) => skip_success r
  | _ => false
  end.

(** A response reaches the state only through the live run of the effect
    ([isMounted]); the timer fires only if armed; the handlers of lines
    79-115 are props of [ClarificationQuestions] alone, so a call of theirs
    settles while that view is shown, and they did the call only with a
    token; the retry button exists only on the error card. *)
Definition step (p : Page) (e : event) : Page :=
  match e with
  | StatusArrived result =>
      if bool_decide (poller p = InFlight) then on_status result p else p
  | StatusFailed message =>
      if bool_decide (poller p = InFlight) then on_failure message p else p
  | TimerFired =>
      if bool_decide (poller p = Waiting) then on_timer p else p
  | SubmitSettled _ | SkipSettled _ =>
      match render p with
      | ClarificationView _ =>
          if truthy_opt (token p) && resolves_clarification e
          then resume p else p
      | _ => p
      end
  | RetryClicked =>
      match render p with
      | ProgressView s _ =>
          match Progress.render s with
          | ErrorCard _ => emit [ErrorCallback] p
          | _ => p
          end
      | _ => p
      end
  end.

Definition run (p : Page) (es : list event) : Page := foldl step p es.

(** The pages that can arise: a page mounted with a token, then events. *)
Inductive reachable : Page -> Prop :=
| reach_mount (tok : list N) :
    truthy_str tok = true -> reachable (mount (Some tok))
| reach_step (p : Page) (e : event) :
    reachable p -> reachable (step p e).

Definition count (a : action) (p : Page) : nat :=
  length (filter (fun x => x = a) (trace p)).

(** What holds of every page that can arise: it has a token; the polling
    effect has run for the current [showClarification]; while the
    clarification is shown no run of the effect is alive and the status is
    the one that asked for it; a live poll has seen neither [ready] nor
    [needs_clarification]; and the card is mounted exactly under the
    progress view, its effect run for the stage of the current status. *)
Record consistent (p : Page) : Prop := mkConsistent {
  has_token : truthy_opt (token p) = true;
  deps_current : effectDeps p = Some (showClarification p);
  shown_means_off : showClarification p = true -> poller p = Off;
  shown_means_asked :
    showClarification p = true ->
    exists s, status p = Some s /\ stage_is s "needs_clarification" = true;
  polling_stage :
    poller p = InFlight \/ poller p = Waiting ->
    forall s, status p = Some s ->
      stage_is s "ready" = false /\ stage_is s "needs_clarification" = false;
  child_mounted : child p = child_of (render p)
}.

(** No run of the polling effect has a fetch in flight or a timer armed. *)
Definition quiet (p : Page) : Prop := poller p = Idle \/ poller p = Off.

End Page.


(* ===================================================================== *)
(** * The session store, continued: login and register *)
(* ===================================================================== *)

Module AuthActions.
Import Eff Api Auth.

(** What [authApi.login] and [authApi.register] resolve to. *)
Record LoginData : Type := mkLoginData {
  login_token : list N;
  login_user : User
}.

(** [login] (lines 61-69), against a gateway whose login call settles to
    [answer] and whose "who am I" operation answers [me]: two awaits in a
    row, a rejection of either rejects [login] at that point. *)
Definition login (answer : exn + LoginData) (me : list N -> exn + MeData)
  : M World exn unit :=
  data ← settled answer;
  setItem TOKEN_KEY (login_token data);;
  setToken (Some (login_token data));;
  setUser (Some (login_user data));;
  meData ← settled (me (login_token data));
  setOrganization (Some (me_organization meData)).

(** [register] (lines 71-79): the same steps after [authApi.register]. *)
Definition register (answer : exn + LoginData) (me : list N -> exn + MeData)
  : M World exn unit :=
  response ← settled answer;
  setItem TOKEN_KEY (login_token response);;
  setToken (Some (login_token response));;
  setUser (Some (login_user response));;
  meData ← settled (me (login_token response));
  setOrganization (Some (me_organization meData)).

(** A page load: the provider mounts anew with its initial state, and the
    browser's storage is what it was. *)
Definition reload (w : World) : World :=
  {| localStorage := localStorage w; session := initial |}.

(** Where the home page sends a visitor. *)
Inductive route : Type :=
| ToChat
| ToUpload.

(** [ReadyStatus]: the two fields the home page reads. *)
Record ReadyStatus : Type := mkReadyStatus {
  ready : bool;
  chatbot_available : bool
}.

(** The redirect effect of the home page: [None] when the guard
    [!isLoading && user && token] fails and no call is made, otherwise the
    route pushed once [onboardingApi.checkReady(token)] has settled to
    [answer]. *)
Definition home_redirect (s : Session) (answer : exn + ReadyStatus)
  : option route :=
  if negb (isLoading s) && bool_decide (is_Some (user s)) && truthy_opt (token s)
  then Some match answer with
            | inr status =>
                if ready status && chatbot_available status
                then ToChat else ToUpload
            | inl _ => ToUpload
            end
  else None.

End AuthActions.

(* ===================================================================== *)
(** * The conversation session over several exchanges *)
(* ===================================================================== *)

Module Conversation.
Import Chat.

(** One invocation of [sendMessage] that is left to run to its end: the
    question, the clock at the call and when the answer settles, and what
    the backend answers to the call this invocation makes.  The backend
    may answer the same call differently from one invocation to the
    next. *)
Record Exchange : Type := mkExchange {
  ex_question : list N;
  ex_asked : list N;
  ex_settled : list N;
  ex_ask : AskCall -> Api.exn + ChatResponse
}.

(** The exchanges one after the other, each invoked once the one before has
    settled, with nothing else touching the state in between. *)
Definition converse (xs : list Exchange) (s : State) : State :=
  foldl (fun s x => sendMessage (ex_ask x) (ex_question x) (ex_asked x)
                      (ex_settled x) s)
        s xs.

(** The guard of line 78 on the question alone. *)
Definition passes (x : Exchange) : bool := truthy_str (trim (ex_question x)).

Definition is_created (c : callback) : bool :=
  match c with ConversationCreated _ => true | MessageSent => false end.

Definition is_user (m : DisplayMessage) : bool :=
  match msg_role m with RoleUser => true | RoleAssistant => false end.

(** How often the parent was told of a new conversation. *)
Definition created (s : State) : nat := length (List.filter is_created (calls s)).

End Conversation.

(* ===================================================================== *)
(** * The stage list of the progress card *)
(* ===================================================================== *)

Module StageList.
Import Progress.

(** How many of its three marks a row of the stage list carries. *)
Definition marks (row : StageRow) : nat :=
  ((if isComplete row then 1 else 0) + (if isCurrent row then 1 else 0)
   + (if isPending row then 1 else 0))%nat.

End StageList.

(* ===================================================================== *)
(** * The processing page over its lifetime *)
(* ===================================================================== *)

Module Lifetime.
Import Progress Page.

(** What the page shows for a status, read off the status alone. *)
Definition view_of_status (r : ProcessingStatus) : view :=
  match validationErrors r with
  | Some ((_ :: _) as errors) => ValidationErrorsView errors (validationWarnings r)
  | _ =>
      match clarification r with
      | Some c =>
          if stage_is r "needs_clarification" then ClarificationView c
          else ProgressView r (cancel_button r)
      | None => ProgressView r (cancel_button r)
      end
  end.

(** The events that can make the page call the status endpoint: the timer,
    and a clarification handler that resolved with success. *)
Definition may_fetch (e : event) : bool :=
  match e with
  | TimerFired => true
  | _ => resolves_clarification e
  end.

(** The polling has ended: nothing is pending and the clarification is not
    shown. *)
Definition ended (p : Page) : Prop := quiet p /\ showClarification p = false.

End Lifetime.

(* ===================================================================== *)
(** * The clarification form: ClarificationQuestions *)
(* ===================================================================== *)

Module Clarify.

(** [ClarificationAnswer]. *)
Record ClarificationAnswer : Type := mkAnswer {
  questionId : list N;
  answer : list N
}.

(** The [answers] state is an object from question identifiers to texts.
    [handleOptionSelect] and [handleTextChange] (lines 58-70) are the same
    update, [{...prev, [questionId]: value}]. *)
Definition handleOptionSelect (questionId value : list N)
    (answers : gmap (list N) (list N)) : gmap (list N) (list N) :=
  <[questionId := value]> answers.

Definition handleTextChange (questionId value : list N)
    (answers : gmap (list N) (list N)) : gmap (list N) (list N) :=
  <[questionId := value]> answers.

(** [value.trim() !== '']. *)
Definition filled (value : list N) : bool := truthy_str (trim value).

(** Lines 73-75 on the entries of the object, in the order in which
    [Object.entries] lists them. *)
Definition answersArray (entries : list (list N * list N))
  : list ClarificationAnswer :=
  List.map (fun kv => {| questionId := fst kv; answer := snd kv |})
           (List.filter (fun kv => filled (snd kv)) entries).

(** [handleSubmit] up to its call of [onSubmit] (lines 72-83): [None] when
    it returns at line 78 without calling, otherwise the answers handed to
    [onSubmit]. *)
Definition handleSubmit (entries : list (list N * list N))
  : option (list ClarificationAnswer) :=
  match answersArray entries with
  | [] => None
  | answered => Some answered
  end.

(** Line 98, on the values in the order of [Object.values]. *)
Definition answeredCount (values : list (list N)) : nat :=
  length (List.filter filled values).

(** The [disabled] of the submit button (line 166). *)
Definition submit_disabled (values : list (list N))
    (isSubmitting isSkipping : bool) : bool :=
  (answeredCount values =? 0)%nat || isSubmitting || isSkipping.

End Clarify.

(* ===================================================================== *)
(** * The conversations directory: ConversationsSidebar *)
(* ===================================================================== *)

Module Sidebar.
Import Eff Api.

(** [Conversation] of api.ts. *)
Record Conversation : Type := mkConversation {
  id : list N;
  title : list N;
  messageCount : float;
  totalTokens : float;
  totalCostUsd : float;
  createdAt : list N;
  updatedAt : list N
}.

Inductive toast : Type :=
| ToastDeleted       (* [toast.success('Conversacion eliminada')] *)
| ToastDeleteFailed. (* [toast.error('Error al eliminar')] *)

(** The state cells of the sidebar, the [selectedId] prop, and what it did
    to the outside: its calls of [onSelect(null)] and its toasts. *)
Record State : Type := mkState {
  conversations : list Conversation;
  isLoading : bool;
  deleteId : option (list N);
  selectedId : option (list N);
  deselected : nat;
  toasts : list toast
}.

Definition setConversations (f : list Conversation -> list Conversation)
  : M State exn unit :=
  modify (fun s => {| conversations := f (conversations s);
                      isLoading := isLoading s; deleteId := deleteId s;
                      selectedId := selectedId s; deselected := deselected s;
                      toasts := toasts s |}).

Definition setIsLoading (b : bool) : M State exn unit :=
  modify (fun s => {| conversations := conversations s;
                      isLoading := b; deleteId := deleteId s;
                      selectedId := selectedId s; deselected := deselected s;
                      toasts := toasts s |}).

Definition setDeleteId (d : option (list N)) : M State exn unit :=
  modify (fun s => {| conversations := conversations s;
                      isLoading := isLoading s; deleteId := d;
                      selectedId := selectedId s; deselected := deselected s;
                      toasts := toasts s |}).

(** [onSelect(null)]. *)
Definition onSelect_null : M State exn unit :=
  modify (fun s => {| conversations := conversations s;
                      isLoading := isLoading s; deleteId := deleteId s;
                      selectedId := selectedId s;
                      deselected := S (deselected s);
                      toasts := toasts s |}).

Definition show_toast (t : toast) : M State exn unit :=
  modify (fun s => {| conversations := conversations s;
                      isLoading := isLoading s; deleteId := deleteId s;
                      selectedId := selectedId s; deselected := deselected s;
                      toasts := toasts s ++ [t] |}).

Definition settled {A} (outcome : exn + A) : M State exn A :=
  match outcome with
  | inr a => mret a
  | inl e => throw e
  end.

(** [loadConversations] from the moment [conversationsApi.list] settles
    (lines 63-72). *)
Definition loadConversations (outcome : exn + list Conversation)
  : M State exn unit :=
  finally
    (catch (result ← settled outcome;
            setConversations (fun _ => result))
           (fun _ => mret tt))
    (setIsLoading false).

(** [handleDelete] (lines 74-89) with the call of [conversationsApi.delete]
    settling to [outcome]; the boolean tells whether the call was made at
    all. *)
Definition handleDelete (outcome : exn + unit) (s : State)
  : bool * ((exn + unit) * State) :=
  match deleteId s with
  | Some target =>
      if truthy_str target then
        (true,
         finally
           (catch
              (settled outcome;;
               setConversations
                 (List.filter (fun c => negb (bool_decide (id c = target))));;
               (if bool_decide (selectedId s = Some target)
                then onSelect_null else mret tt);;
               show_toast ToastDeleted)
              (fun _ => show_toast ToastDeleteFailed))
           (setDeleteId None) s)
      else (false, (inr tt, s))
  | None => (false, (inr tt, s))
  end.

End Sidebar.

(* ===================================================================== *)
(** * The file picker: FileUploader *)
(* ===================================================================== *)

Module Uploader.

(** A [File], by the two fields the picker reads. *)
Record File : Type := mkFile {
  name : list N;
  size : Z
}.

Definition ACCEPTED_EXTENSIONS : list (list N) :=
  [lit ".xlsx"; lit ".xls"; lit ".csv"; lit ".pdf"; lit ".docx"; lit ".doc"].

(** [s.split('.').pop()]: what follows the last full stop, the whole
    string when it has none. *)
Fixpoint last_segment_from (acc s : list N) : list N :=
  match s with
  | [] => acc
  | c :: rest =>
      if (c =? 46)%N then last_segment_from [] rest
      else last_segment_from (acc ++ [c]) rest
  end.

Definition last_segment (s : list N) : list N := last_segment_from [] s.

Section Picker.
(** [String.prototype.toLowerCase], which the development leaves to the
    platform. *)
Variable toLowerCase : list N -> list N.

(** The test of [validateFile] (lines 33-34). *)
Definition accepted (file : File) : bool :=
  bool_decide (lit "." ++ toLowerCase (last_segment (name file))
               ∈ ACCEPTED_EXTENSIONS).

(** The text [validateFile] puts into the [error] state (line 35). *)
Definition rejection (file : File) : list N :=
  lit "Archivo " ++ [34%N] ++ name file ++ [34%N] ++ lit " no es v" ++ [225%N]
  ++ lit "lido. Solo se aceptan Excel, CSV, PDF y Word.".

(** The picker's state cells. *)
Record State : Type := mkState {
  files : list File;
  isDragging : bool;
  error : option (list N)
}.

(** [files.some((f) => f.name === file.name && f.size === file.size)]. *)
Definition already_selected (selected : list File) (file : File) : bool :=
  existsb (fun f => bool_decide (name f = name file)
                    && bool_decide (size f = size file))
          selected.

(** The loop of [handleFiles] (lines 44-52) over the files still to look
    at: the valid files collected so far and the last rejection. *)
Fixpoint scan (selected : list File) (todo : list File)
    (validFiles : list File) (err : option (list N))
  : list File * option (list N) :=
  match todo with
  | [] => (validFiles, err)
  | file :: rest =>
      if accepted file then
        if negb (already_selected selected file)
        then scan selected rest (validFiles ++ [file]) err
        else scan selected rest validFiles err
      else scan selected rest validFiles (Some (rejection file))
  end.

(** [handleFiles] (lines 40-57). *)
Definition handleFiles (newFiles : list File) (s : State) : State :=
  let (validFiles, err) := scan (files s) newFiles [] None in
  {| files := match validFiles with
              | [] => files s
              | _ => files s ++ validFiles
              end;
     isDragging := isDragging s;
     error := err |}.

(** [handleDrop] (lines 59-63). *)
Definition handleDrop (dropped : list File) (s : State) : State :=
  handleFiles dropped
    {| files := files s; isDragging := false; error := error s |}.

(** [prev.filter((_, i) => i !== index)] of [removeFile] (lines 75-77). *)
Fixpoint remove_at (index : nat) (l : list File) : list File :=
  match l, index with
  | [], _ => []
  | _ :: rest, O => rest
  | f :: rest, S i => f :: remove_at i rest
  end.

Definition removeFile (index : nat) (s : State) : State :=
  {| files := remove_at index (files s);
     isDragging := isDragging s; error := error s |}.

(** [handleSubmit] (lines 79-83): the files handed to [onFilesSelected],
    if it is called. *)
Definition handleSubmit (s : State) : option (list File) :=
  match files s with
  | [] => None
  | selected => Some selected
  end.

(** What the visitor does to the picker. *)
Inductive action : Type :=
| Pick (newFiles : list File)
| Drop (dropped : list File)
| Remove (index : nat).

Definition act (s : State) (a : action) : State :=
  match a with
  | Pick newFiles => handleFiles newFiles s
  | Drop dropped => handleDrop dropped s
  | Remove index => removeFile index s
  end.

End Picker.

(** The picker as it mounts. *)
Definition initial : State := {| files := []; isDragging := false; error := None |}.

(** Lower case of the letters A-Z, with which [toLowerCase] agrees on
    strings of ASCII characters. *)
Definition ascii_lower (s : list N) : list N :=
  List.map (fun c => if ((65 <=? c) && (c <=? 90))%N then (c + 32)%N else c) s.

End Uploader.

(* ===================================================================== *)
(** * Sample inputs *)
(* ===================================================================== *)

Module Samples.
Import Progress.

Definition API : list N := lit "http://localhost:3000/api/v1".

Definition plain_get (tok : list N) : Api.RequestOptions :=
  {| Api.opt_token := Some tok; Api.opt_method := None;
     Api.opt_headers := None; Api.opt_body := Api.NoBody |}.

(** [Number::toString] on the numbers that are integers of magnitude below
    2^53, where it gives the decimal digits; the samples hold no other
    number. *)
Definition integer_toString (x : float) : list N :=
  match Math_round x with
  | Some z => lit (NilZero.string_of_int (Z.to_int z))
  | None => lit "NaN"
  end.

(** A server error whose body is the JSON value [null]. *)
Definition null_error_response : Api.Response :=
  {| Api.status := 500; Api.parsed := Some JNull |}.

(** An error body that is an object, with a code and no message. *)
Definition coded_error_response : Api.Response :=
  {| Api.status := 401;
     Api.parsed := Some (JObj [(lit "error", JStr (lit "Unauthorized"))]) |}.

(** Error bodies whose message is not a string: an empty array, an array
    of two strings, a number, and an object with a member [toString]. *)
Definition empty_list_message : Api.Response :=
  {| Api.status := 500;
     Api.parsed := Some (JObj [(lit "message", JArr [])]) |}.

Definition list_message : Api.Response :=
  {| Api.status := 500;
     Api.parsed :=
       Some (JObj [(lit "message", JArr [JStr (lit "a"); JStr (lit "b")])]) |}.

Definition number_message : Api.Response :=
  {| Api.status := 404;
     Api.parsed := Some (JObj [(lit "message", JNum 404)]) |}.

Definition opaque_message : Api.Response :=
  {| Api.status := 500;
     Api.parsed :=
       Some (JObj [(lit "message", JObj [(lit "toString", JNull)])]) |}.

(** A success response whose body is not JSON, and one whose body is. *)
Definition garbled_ok_response : Api.Response :=
  {| Api.status := 200; Api.parsed := None |}.

Definition json_ok_response : Api.Response :=
  {| Api.status := 200; Api.parsed := Some (JObj [(lit "ready", JBool true)]) |}.

(** A browser that holds a token from an earlier visit. *)
Definition returning_visitor : Auth.World :=
  {| Auth.localStorage := {[ Auth.TOKEN_KEY := lit "stale-token" ]};
     Auth.session := Auth.initial |}.

Definition unauthorized : Api.exn :=
  Api.ThrowApiError {| Api.err_status := 401;
                       Api.err_code := JStr (lit "Unauthorized");
                       Api.err_message := lit "Invalid token" |}.

(** A conversation that has not started. *)
Definition fresh_chat : Chat.State :=
  {| Chat.messages := []; Chat.input := []; Chat.isLoading := false;
     Chat.currentConversationId := None; Chat.calls := [] |}.

Definition sample_response : Chat.ChatResponse :=
  {| Chat.success := true; Chat.answer := lit "42";
     Chat.r_sql := Some (lit "SELECT 42"); Chat.r_data := None;
     Chat.confidence := None; Chat.r_conversationId := lit "c1";
     Chat.r_tokens := None; Chat.r_costUsd := None;
     Chat.r_source := Some (lit "database") |}.

(** A status that reports a stage and nothing else. *)
Definition at_stage (name : list N) : ProcessingStatus :=
  {| hasProcessing := true; stage := Some name; stageInfo := None;
     progress := None; qualityScore := None; Progress.error := None;
     clarification := None; validationErrors := None;
     validationWarnings := None |}.

(** Scenario A of the spec. *)
Definition scenario_A : ProcessingStatus :=
  {| hasProcessing := true; stage := Some (lit "processing_data");
     stageInfo := None;
     progress := Some {| current := 3; total := 10; percentage := 30 |};
     qualityScore := None; Progress.error := None;
     clarification := None; validationErrors := None;
     validationWarnings := None |}.

Definition empty_file : ValidationError :=
  {| fileId := lit "f1"; fileName := lit "ventas.csv"; errorType := lit "empty";
     v_message := lit "El archivo esta vacio"; suggestion := lit "Sube otro archivo" |}.

(** A status that reports [ready] together with a validation error. *)
Definition ready_with_validation_error : ProcessingStatus :=
  {| hasProcessing := true; stage := Some (lit "ready"); stageInfo := None;
     progress := None; qualityScore := None; Progress.error := None;
     clarification := None; validationErrors := Some [empty_file];
     validationWarnings := None |}.


Definition two_questions : ClarificationState :=
  {| needed := true; reason := lit "low_confidence";
     questions := [ {| q_id := lit "q1"; q_type := lit "terminology";
                       q_question := lit "Que es SKU?";
                       q_importance := lit "high" |} ];
     answeredCount := 0; pendingCount := 1 |}.

(** A status at [needs_clarification] that carries both an error and the
    questions. *)
Definition failed_while_asking : ProcessingStatus :=
  {| hasProcessing := true; stage := Some (lit "needs_clarification");
     stageInfo := None; progress := None; qualityScore := None;
     Progress.error := Some (ErrorString (lit "boom"));
     clarification := Some two_questions; validationErrors := None;
     validationWarnings := None |}.

(** A status that asks for clarification. *)
Definition asks_clarification : ProcessingStatus :=
  {| hasProcessing := true; stage := Some (lit "needs_clarification");
     stageInfo := None; progress := None; qualityScore := None;
     Progress.error := None; clarification := Some two_questions;
     validationErrors := None; validationWarnings := None |}.

(** A page that has just mounted, its first fetch in flight. *)
Definition mounted : Page.Page := Page.mount (Some (lit "t")).

Definition answered : Page.event :=
  Page.SubmitSettled (inr {| Page.submit_success := true; Page.improved := true |}).

End Samples.

Module MoreSamples.

Definition ana : Auth.User :=
  {| Auth.user_id := lit "u1"; Auth.user_email := lit "ana@example.com";
     Auth.user_name := lit "Ana" |}.

Definition ana_login : AuthActions.LoginData :=
  {| AuthActions.login_token := lit "fresh-token";
     AuthActions.login_user := ana |}.

Definition ana_me : Auth.MeData :=
  {| Auth.me_user := ana;
     Auth.me_organization := JObj [(lit "id", JStr (lit "o1"))] |}.

(** A browser that has stored nothing. *)
Definition first_visit : Auth.World :=
  {| Auth.localStorage := ∅; Auth.session := Auth.initial |}.

(** A question that fails, a blank one, and the first question again, which
    now succeeds. *)
Definition three_asks : list Conversation.Exchange :=
  [ {| Conversation.ex_question := lit "ventas de ayer?";
       Conversation.ex_asked := lit "t0"; Conversation.ex_settled := lit "t1";
       Conversation.ex_ask := fun _ => inl Api.ThrowNetworkError |};
    {| Conversation.ex_question := lit "  ";
       Conversation.ex_asked := lit "t2"; Conversation.ex_settled := lit "t3";
       Conversation.ex_ask := fun _ => inr Samples.sample_response |};
    {| Conversation.ex_question := lit "ventas de ayer?";
       Conversation.ex_asked := lit "t4"; Conversation.ex_settled := lit "t5";
       Conversation.ex_ask := fun _ => inr Samples.sample_response |} ].

Definition persisted_greeting : Chat.ConversationMessage :=
  {| Chat.cm_id := lit "m1"; Chat.cm_role := Chat.RoleAssistant;
     Chat.cm_content := lit "Hola"; Chat.cm_sql := None; Chat.cm_data := None;
     Chat.cm_source := None;
     Chat.cm_tokens := {| Chat.input_tokens := 1; Chat.output_tokens := 2 |};
     Chat.cm_costUsd := 0; Chat.cm_createdAt := lit "2026-01-01" |}.

(** The form after a choice for the first question and a blank text for
    the second. *)
Definition two_answers : gmap (list N) (list N) :=
  Clarify.handleTextChange (lit "q2") (lit "  ")
    (Clarify.handleOptionSelect (lit "q1") (lit "POS") ∅).

Definition sales : Uploader.File :=
  {| Uploader.name := lit "Ventas.XLSX"; Uploader.size := 2048 |}.

Definition notes : Uploader.File :=
  {| Uploader.name := lit "notas.txt"; Uploader.size := 10 |}.

(** A pick of two files, a drop of one of them again, and the removal of
    a file that is not there. *)
Definition picks : list Uploader.action :=
  [Uploader.Pick [sales; notes]; Uploader.Drop [sales]; Uploader.Remove 5].

End MoreSamples.

(* ===================================================================== *)
(** * Properties *)
(* ===================================================================== *)

(** ** Strings *)

Section StringFacts.
Implicit Types s : list N.

Lemma trim_start_blank s : trim_start s = [] <-> blank s = true.
Proof.
  induction s as [|c s IH]; simpl; [done|].
  destruct (is_ws c); simpl; [exact IH|].
  split; discriminate.
Qed.

Lemma trim_start_head s c rest : trim_start s = c :: rest -> is_ws c = false.
Proof.
  induction s as [|d s IH]; simpl; [discriminate|].
  destruct (is_ws d) eqn:Hd; [exact IH|].
  intros [= <- _]. exact Hd.
Qed.

Lemma blank_rev s : blank (rev s) = blank s.
Proof.
  unfold blank. induction s as [|c s IH]; simpl; [done|].
  rewrite forallb_app, IH. simpl. rewrite andb_true_r. apply andb_comm.
Qed.

(** [question.trim()] is the empty string exactly for an empty or
    whitespace-only question. *)
Lemma trim_empty_iff_blank s : truthy_str (trim s) = false <-> blank s = true.
Proof.
  unfold trim, trim_end. split.
  - intros H. apply trim_start_blank.
    destruct (trim_start s) as [|c rest] eqn:E; [done|].
    assert (Hb : blank (rev (c :: rest)) = true).
    { apply trim_start_blank.
      destruct (trim_start (rev (c :: rest))) as [|d r] eqn:E'; [done|].
      simpl in H. destruct (rev r); discriminate. }
    rewrite blank_rev in Hb. simpl in Hb.
    rewrite (trim_start_head _ _ _ E) in Hb. discriminate.
  - intros H. apply trim_start_blank in H. rewrite H. reflexivity.
Qed.


End StringFacts.

(** ** The gateway client *)

Section ApiFacts.
Import Api.
Variable API_BASE : list N.
Variable Number_toString : float -> list N.
Implicit Types (net : FetchCall -> option Response) (endpoint : list N)
  (options : RequestOptions) (response : Response) (data : json).

Lemma get_prop_not_null data (k : list N) :
  data <> JNull -> exists x, get_prop data k = Some x.
Proof. destruct data; simpl; eauto. congruence. Qed.

(** A token is sent as a bearer token; a file bundle gets no content type
    of the client's own. *)
Lemma request_headers_bearer options (tok : list N) :
  opt_token options = Some tok -> truthy_str tok = true ->
  request_headers options !! lit "Authorization" = Some (lit "Bearer " ++ tok).
Proof.
  intros Ht Htok. unfold request_headers. rewrite Ht, Htok.
  destruct (opt_body options);
    rewrite ?lookup_insert_ne by (vm_compute; congruence);
    apply lookup_insert_eq.
Qed.

Lemma request_headers_form_data options files :
  opt_body options = FormData files -> opt_headers options = None ->
  request_headers options !! lit "Content-Type" = None.
Proof.
  intros Hb Hh. unfold request_headers. rewrite Hb, Hh.
  destruct (opt_token options) as [tok|]; [destruct (truthy_str tok)|];
    rewrite ?lookup_insert_ne by (vm_compute; congruence);
    apply lookup_empty.
Qed.

(** The message of the error, by the value the body holds: the generic
    text when the field is absent or falsy, the field when it is a string
    that is not empty, and in general the string made of the field. *)
Lemma message_text (m : option json) :
  (m = None ->
     ToString Number_toString (or_else m (JStr (lit "An error occurred")))
     = Some (lit "An error occurred")) /\
  (forall v, m = Some v -> truthy v = false ->
     ToString Number_toString (or_else m (JStr (lit "An error occurred")))
     = Some (lit "An error occurred")) /\
  (forall v, m = Some v -> truthy v = true ->
     ToString Number_toString (or_else m (JStr (lit "An error occurred")))
     = ToString Number_toString v) /\
  (forall text, m = Some (JStr text) -> truthy_str text = true ->
     ToString Number_toString (or_else m (JStr (lit "An error occurred")))
     = Some text).
Proof.
  repeat split.
  - by intros ->.
  - intros v -> Hv. simpl. by rewrite Hv.
  - intros v -> Hv. simpl. by rewrite Hv.
  - intros text -> Hv. simpl. by rewrite Hv.
Qed.

(** What [request] does with a response of a status outside 200-299 whose
    body parsed to a value other than [null]. *)
Lemma request_non_2xx net endpoint options response data :
  net (call_of API_BASE endpoint options) = Some response ->
  ok response = false -> parsed response = Some data -> data <> JNull ->
  exists e m,
    get_prop data (lit "error") = Some e /\
    get_prop data (lit "message") = Some m /\
    request API_BASE Number_toString net endpoint options =
      inl (new_ApiError Number_toString (status response)
             (or_else e (JStr (lit "UnknownError")))
             (or_else m (JStr (lit "An error occurred")))).
Proof.
  intros Hnet Hok Hp Hnn. unfold request. rewrite Hnet, Hok, Hp. simpl.
  destruct (get_prop_not_null data (lit "error") Hnn) as [e He].
  destruct (get_prop_not_null data (lit "message") Hnn) as [m Hm].
  exists e, m. by rewrite He, Hm.
Qed.

(** C6, as the code has it.  For every response with a status outside
    200-299 whose body parses as a JSON value other than [null], [request]
    throws an [ApiError] carrying the response status, as code the body's
    [error] when it is present and truthy and ['UnknownError'] otherwise,
    and as message the string that [Error] makes of the body's [message]
    when it is present and truthy, and a generic message otherwise: a
    message that is a string is carried as it is, any other value is
    converted, and when the conversion throws, [request] fails with that
    TypeError instead.  For no response with such a status, whatever its
    body, does [request] return a value. *)
Theorem request_non_2xx_raises_ApiError net endpoint options response :
  net (call_of API_BASE endpoint options) = Some response ->
  ok response = false ->
  (forall data, parsed response = Some data -> data <> JNull ->
     exists e m,
       get_prop data (lit "error") = Some e /\
       get_prop data (lit "message") = Some m /\
       request API_BASE Number_toString net endpoint options =
         match ToString Number_toString
                 (or_else m (JStr (lit "An error occurred"))) with
         | Some text =>
             inl (ThrowApiError
                    {| err_status := status response;
                       err_code := or_else e (JStr (lit "UnknownError"));
                       err_message := text |})
         | None => inl ThrowTypeError
         end /\
       (e = None -> or_else e (JStr (lit "UnknownError")) = JStr (lit "UnknownError")) /\
       (forall v, e = Some v -> truthy v = true ->
          or_else e (JStr (lit "UnknownError")) = v) /\
       (forall v, e = Some v -> truthy v = false ->
          or_else e (JStr (lit "UnknownError")) = JStr (lit "UnknownError")) /\
       (m = None ->
          ToString Number_toString (or_else m (JStr (lit "An error occurred")))
          = Some (lit "An error occurred")) /\
       (forall v, m = Some v -> truthy v = false ->
          ToString Number_toString (or_else m (JStr (lit "An error occurred")))
          = Some (lit "An error occurred")) /\
       (forall v, m = Some v -> truthy v = true ->
          ToString Number_toString (or_else m (JStr (lit "An error occurred")))
          = ToString Number_toString v) /\
       (forall text, m = Some (JStr text) -> truthy_str text = true ->
          ToString Number_toString (or_else m (JStr (lit "An error occurred")))
          = Some text))
  /\ (forall v, request API_BASE Number_toString net endpoint options <> inr v).
Proof.
  intros Hnet Hok. split.
  - intros data Hp Hnn.
    destruct (request_non_2xx net endpoint options response data
                Hnet Hok Hp Hnn) as (e & m & He & Hm & Hr).
    exists e, m. split; [done|]. split; [done|]. split.
    { rewrite Hr. unfold new_ApiError. by destruct (ToString _ _). }
    split; [by intros ->|]. split; [intros v -> Hv; simpl; by rewrite Hv|].
    split; [intros v -> Hv; simpl; by rewrite Hv|].
    apply message_text.
  - intros v. unfold request. rewrite Hnet, Hok. simpl.
    destruct (parsed response) as [data|]; [|discriminate].
    destruct (get_prop data (lit "error")); [|discriminate].
    destruct (get_prop data (lit "message")); discriminate.
Qed.

(** C10.  The body is parsed before the status is looked at: a response
    whose body is not valid JSON makes [request] fail with the parse failure
    itself, not an [ApiError], whatever the status (a 2xx status included);
    and a 2xx response whose body parses is returned as parsed. *)
Theorem request_parses_before_status net endpoint options response :
  net (call_of API_BASE endpoint options) = Some response ->
  (parsed response = None ->
     request API_BASE Number_toString net endpoint options
     = inl ThrowSyntaxError) /\
  (forall data, parsed response = Some data -> ok response = true ->
     request API_BASE Number_toString net endpoint options = inr data).
Proof.
  intros Hnet. unfold request. rewrite Hnet. split.
  - by intros ->.
  - intros data -> ->. reflexivity.
Qed.

End ApiFacts.

(** C6 as stated fails: a non-2xx response whose body parses as JSON, here
    as [null], makes [request] fail with a TypeError and not with an
    [ApiError]. *)
Lemma request_null_body_not_ApiError :
  Api.ok Samples.null_error_response = false /\
  Api.parsed Samples.null_error_response = Some JNull /\
  Api.request Samples.API Samples.integer_toString
    (fun _ => Some Samples.null_error_response)
    (lit "/onboarding/process/status") (Samples.plain_get (lit "t"))
  = inl Api.ThrowTypeError.
Proof. repeat split. Qed.

(** Nor is the message of the error always the [message] of the body: an
    empty array makes the empty message, an array of strings their
    concatenation with commas, and an object with a member [toString]
    makes [request] fail with a TypeError. *)
Lemma request_message_is_converted :
  Api.request Samples.API Samples.integer_toString
    (fun _ => Some Samples.empty_list_message)
    (lit "/chat/ask") (Samples.plain_get (lit "t"))
  = inl (Api.ThrowApiError
           {| Api.err_status := 500;
              Api.err_code := JStr (lit "UnknownError");
              Api.err_message := [] |}) /\
  Api.request Samples.API Samples.integer_toString
    (fun _ => Some Samples.list_message)
    (lit "/chat/ask") (Samples.plain_get (lit "t"))
  = inl (Api.ThrowApiError
           {| Api.err_status := 500;
              Api.err_code := JStr (lit "UnknownError");
              Api.err_message := lit "a,b" |}) /\
  Api.request Samples.API Samples.integer_toString
    (fun _ => Some Samples.number_message)
    (lit "/chat/ask") (Samples.plain_get (lit "t"))
  = inl (Api.ThrowApiError
           {| Api.err_status := 404;
              Api.err_code := JStr (lit "UnknownError");
              Api.err_message := lit "404" |}) /\
  Api.request Samples.API Samples.integer_toString
    (fun _ => Some Samples.opaque_message)
    (lit "/chat/ask") (Samples.plain_get (lit "t"))
  = inl Api.ThrowTypeError.
Proof. repeat split; vm_compute; reflexivity. Qed.

(** The theorem at a 401 whose body carries a code and no message. *)
Lemma request_non_2xx_raises_ApiError_witness :
  Api.request Samples.API Samples.integer_toString
    (fun _ => Some Samples.coded_error_response)
    (lit "/auth/me") (Samples.plain_get (lit "t"))
  = inl (Api.ThrowApiError
           {| Api.err_status := 401;
              Api.err_code := JStr (lit "Unauthorized");
              Api.err_message := lit "An error occurred" |}).
Proof.
  destruct (request_non_2xx_raises_ApiError Samples.API
              Samples.integer_toString
              (fun _ => Some Samples.coded_error_response) (lit "/auth/me")
              (Samples.plain_get (lit "t")) Samples.coded_error_response
              eq_refl eq_refl)
    as [H _].
  destruct (H _ eq_refl ltac:(discriminate)) as (e & m & He & Hm & Hr & _).
  vm_compute in He, Hm.
  injection He as <-. injection Hm as <-. exact Hr.
Defined.

(** The theorem at two responses with status 200, one garbled, one JSON. *)
Lemma request_parses_before_status_witness :
  Api.request Samples.API Samples.integer_toString
    (fun _ => Some Samples.garbled_ok_response)
    (lit "/onboarding/ready") (Samples.plain_get (lit "t"))
  = inl Api.ThrowSyntaxError
  /\ Api.request Samples.API Samples.integer_toString
       (fun _ => Some Samples.json_ok_response)
       (lit "/onboarding/ready") (Samples.plain_get (lit "t"))
     = inr (JObj [(lit "ready", JBool true)]).
Proof.
  split.
  - apply (request_parses_before_status Samples.API Samples.integer_toString
             (fun _ => Some Samples.garbled_ok_response)
             _ _ Samples.garbled_ok_response eq_refl); reflexivity.
  - apply (request_parses_before_status Samples.API Samples.integer_toString
             (fun _ => Some Samples.json_ok_response)
             _ _ Samples.json_ok_response eq_refl); reflexivity.
Defined.

(** ** The session store *)

Section AuthFacts.
Import Eff Auth.
Implicit Types (w : World) (tok : list N).

(** When the store holds no token, or the empty string, no call is made:
    the flag is cleared at once and the storage is left as it is. *)
Lemma restore_begin_without_token w :
  truthy_opt (localStorage w !! TOKEN_KEY) = false ->
  restore_begin w =
    (inr None,
     {| localStorage := localStorage w;
        session := {| user := user (session w);
                      organization := organization (session w);
                      token := token (session w);
                      isLoading := false |} |}).
Proof. intros H. cbv [restore_begin getItem mbind eff_bind bind get mret eff_ret ret]. by rewrite H. Qed.

(** While the call is pending nothing has changed yet: the flag still says
    that the session is being restored. *)
Lemma restore_begin_pending w w1 tok :
  restore_begin w = (inr (Some tok), w1) ->
  w1 = w /\ localStorage w !! TOKEN_KEY = Some tok /\ truthy_str tok = true.
Proof.
  cbv [restore_begin getItem mbind eff_bind bind get mret eff_ret ret].
  destruct (localStorage w !! TOKEN_KEY) as [t|] eqn:E; simpl.
  - destruct (truthy_str t) eqn:Et; simpl; intros [= <- <-]; done.
  - intros [= ].
Qed.

(** A token that "who am I" accepts is adopted together with the identity
    it stands for. *)
Lemma restore_settle_accepted w tok (data : MeData) :
  restore_settle tok (inr data) w =
    (inr tt,
     {| localStorage := localStorage w;
        session := {| user := Some (me_user data);
                      organization := Some (me_organization data);
                      token := Some tok;
                      isLoading := false |} |}).
Proof. reflexivity. Qed.

(** C7.  Whenever the restore effect has sent the stored token to "who am
    I" and that call is rejected, whatever the rejection, the effect
    completes without throwing, the persisted token is gone from the
    storage, token, user and organization are absent, and the
    initialization flag is cleared; until then the session was untouched, so
    the flag was still the one of a session being restored. *)
Theorem restore_rejected_token w w1 tok (e : Api.exn) :
  restore_begin w = (inr (Some tok), w1) ->
  exists w2,
    restore_settle tok (inl e) w1 = (inr tt, w2) /\
    localStorage w !! TOKEN_KEY = Some tok /\
    session w1 = session w /\
    localStorage w2 = delete TOKEN_KEY (localStorage w) /\
    localStorage w2 !! TOKEN_KEY = None /\
    token (session w2) = None /\
    user (session w2) = None /\
    organization (session w2) = None /\
    isLoading (session w2) = false.
Proof.
  intros Hb. apply restore_begin_pending in Hb as (-> & Hs & _).
  eexists. split; [reflexivity|]. simpl.
  repeat split; try done. apply lookup_delete_eq.
Qed.

(** The same through the whole effect, for a gateway that rejects the
    stored token. *)
Corollary restore_with_rejecting_gateway (me : list N -> Api.exn + MeData) w tok e :
  localStorage w !! TOKEN_KEY = Some tok -> truthy_str tok = true ->
  me tok = inl e ->
  restore me w =
    (inr tt,
     {| localStorage := delete TOKEN_KEY (localStorage w);
        session := {| user := None; organization := None; token := None;
                      isLoading := false |} |}).
Proof.
  intros Hs Ht Hme.
  cbv [restore restore_begin getItem mbind eff_bind bind get mret eff_ret ret].
  rewrite Hs. simpl. rewrite Ht, Hme. reflexivity.
Qed.

End AuthFacts.

(** The theorem at a returning visitor whose token the gateway answers
    with a 401. *)
Lemma restore_rejected_token_witness :
  exists w2,
    Auth.restore_settle (lit "stale-token") (inl Samples.unauthorized)
      Samples.returning_visitor = (inr tt, w2) /\
    Auth.localStorage w2 !! Auth.TOKEN_KEY = None /\
    Auth.session w2 =
      {| Auth.user := None; Auth.organization := None; Auth.token := None;
         Auth.isLoading := false |}.
Proof.
  destruct (restore_rejected_token Samples.returning_visitor
              Samples.returning_visitor (lit "stale-token")
              Samples.unauthorized eq_refl)
    as (w2 & Hr & _ & _ & _ & Hl & Ht & Hu & Ho & Hi).
  exists w2. split; [exact Hr|]. split; [exact Hl|].
  destruct w2 as [ls [u o t l]]. simpl in *. by subst.
Defined.

(** ** The conversation session *)

Section ChatFacts.
Import Eff Chat.
Implicit Types (s : State) (question now : list N).



(** C5.  For every question that is empty or whitespace-only, and for every
    invocation made while an exchange is in flight, [sendMessage] returns
    at its guard: no call is made and the state, so the message log, the
    in-flight flag and the active conversation identifier, is left as it
    was. *)
Theorem ask_guard_noop (ask : AskCall -> Api.exn + ChatResponse)
    question t0 t1 s :
  blank question = true \/ isLoading s = true ->
  sendMessage_begin question t0 s = None /\
  sendMessage ask question t0 t1 s = s /\
  messages (sendMessage ask question t0 t1 s) = messages s /\
  isLoading (sendMessage ask question t0 t1 s) = isLoading s /\
  currentConversationId (sendMessage ask question t0 t1 s)
    = currentConversationId s.
Proof.
  intros H.
  assert (Hb : sendMessage_begin question t0 s = None).
  { unfold sendMessage_begin. destruct H as [H|H].
    - apply trim_empty_iff_blank in H. by rewrite H.
    - rewrite H. by rewrite orb_true_r. }
  unfold sendMessage. rewrite Hb. done.
Qed.

(** A new conversation adopts the identifier of the response and tells the
    parent once; a conversation that has one keeps it. *)
Lemma sendMessage_adopts_conversation call response now s :
  truthy_opt (ask_conversationId call) = false ->
  truthy_str (r_conversationId response) = true ->
  let s2 := snd (sendMessage_settle call (inr response) now s) in
  currentConversationId s2 = Some (r_conversationId response) /\
  calls s2 = calls s ++ [ConversationCreated (r_conversationId response); MessageSent].
Proof.
  intros H1 H2.
  cbv [sendMessage_settle finally catch mbind eff_bind bind settled mret eff_ret ret].
  rewrite H1, H2. simpl. by rewrite <- app_assoc.
Qed.

(** Changing the conversation replaces the log; nothing of the old one is
    kept. *)
Lemma hydrate_replaces_log conversationId initialMessages s :
  length (messages (hydrate conversationId initialMessages s))
    = length initialMessages /\
  currentConversationId (hydrate conversationId initialMessages s) = conversationId.
Proof. simpl. by rewrite length_map. Qed.

End ChatFacts.


(** Nor does the log grow by two when the conversation is switched while
    the call is pending: the answer alone follows the log switched to. *)
Lemma switched_exchange_drops_the_question :
  Chat.messages
    (snd (Chat.sendMessage_settle
            {| Chat.ask_question := lit "cuantas?";
               Chat.ask_conversationId := None |}
            (inr Samples.sample_response) (lit "t1")
            (Chat.hydrate (Some (lit "c0")) []
               {| Chat.messages := [Chat.userMessage (lit "cuantas?") (lit "t0")];
                  Chat.input := []; Chat.isLoading := true;
                  Chat.currentConversationId := None; Chat.calls := [] |})))
  = [Chat.assistantMessage Samples.sample_response (lit "t1")].
Proof. reflexivity. Qed.


(** The theorem at a question of three spaces. *)
Lemma ask_guard_noop_witness :
  Chat.sendMessage (fun _ => inr Samples.sample_response) (lit "   ")
    (lit "t0") (lit "t1") Samples.fresh_chat = Samples.fresh_chat.
Proof.
  apply (ask_guard_noop (fun _ => inr Samples.sample_response) (lit "   ")
           (lit "t0") (lit "t1") Samples.fresh_chat).
  left. reflexivity.
Defined.

(** ** The progress card *)

Section ProgressFacts.
Import Progress.
Implicit Types (s : ProcessingStatus).

(** The overall progress depends on the status through its stage only. *)
Lemma overallProgress_stage s name :
  stage s = Some name ->
  overallProgress s = overallProgress (Samples.at_stage name)
  /\ currentStageIndex s = currentStageIndex (Samples.at_stage name).
Proof. intros H. unfold overallProgress, currentStageIndex. by rewrite H. Qed.

(** A status without a stage is shown as the first stage, and a stage the
    order does not list as no progress at all. *)
Lemma overallProgress_outside_order :
  Math_round (overallProgress (Samples.at_stage [])) = Some 10
  /\ Math_round (overallProgress (Samples.at_stage (lit "archived"))) = Some 0.
Proof. split; reflexivity. Qed.

(** C8.  For every status whose stage is the [i]-th of the declared order,
    the index the card computes is [i]; the overall progress is
    [(i + 1) / 10 * 100] as computed in binary64, within 2^-46 of the exact
    percentage, and the percentage displayed, its rounding, is exactly
    [(i + 1) * 100 / 10]; the progress card of such a status without an
    error shows that number.  In scenario A the card shows 50 as the overall
    percentage and, separately, the nested counters 3 / 10 with their own
    30. *)
Theorem overall_progress_fraction s (name : list N) (i : nat) :
  stage s = Some name ->
  stageOrder !! i = Some name ->
  let exact := (Z.of_nat i + 1) * 100 / Z.of_nat (length stageOrder) in
  currentStageIndex s = Z.of_nat i /\
  overallProgress s
    = ((num_of_Z (Z.of_nat i) + 1) / num_of_Z (Z.of_nat (length stageOrder)) * 100)%float /\
  (num_of_Z exact <=? overallProgress s)%float = true /\
  (overallProgress s <=? num_of_Z exact + 0x1p-46)%float = true /\
  Math_round (overallProgress s) = Some exact /\
  (has_error s = false ->
   exists rows,
     render s = ProgressCard (Some exact) (overallProgress s)
                  (option_map (fun c => (current c, total c)) (progress s))
                  (option_map percentage (progress s)) rows) /\
  (exists rows,
     render Samples.scenario_A
     = ProgressCard (Some 50) 50 (Some (3, 10)%float) (Some 30%float) rows).
Proof.
  intros Hs Hi exact.
  destruct (overallProgress_stage s name Hs) as [Ho Hc].
  assert (Hmain :
    currentStageIndex (Samples.at_stage name) = Z.of_nat i /\
    overallProgress (Samples.at_stage name)
      = ((num_of_Z (Z.of_nat i) + 1) / num_of_Z (Z.of_nat (length stageOrder)) * 100)%float /\
    (num_of_Z exact <=? overallProgress (Samples.at_stage name))%float = true /\
    (overallProgress (Samples.at_stage name) <=? num_of_Z exact + 0x1p-46)%float = true /\
    Math_round (overallProgress (Samples.at_stage name)) = Some exact).
  { subst exact. unfold stageOrder in Hi.
    do 10 (destruct i as [|i];
           [ injection Hi as <-; vm_compute; repeat split; reflexivity | ]).
    discriminate Hi. }
  destruct Hmain as (H1 & H2 & H3 & H4 & H5).
  rewrite Ho, Hc. repeat split; try done.
  - intros He. eexists. unfold render, progress_card.
    rewrite Ho, H5.
    destruct (error s); [rewrite He|]; reflexivity.
  - eexists. reflexivity.
Qed.

End ProgressFacts.

(** The theorem at scenario A: [processing_data] is the fifth stage. *)
Lemma overall_progress_fraction_witness :
  Math_round (Progress.overallProgress Samples.scenario_A) = Some 50.
Proof.
  apply (overall_progress_fraction Samples.scenario_A (lit "processing_data") 4
           eq_refl eq_refl).
Defined.

(** ** The processing page *)

Section PageFacts.
Import Progress Page.
Implicit Types (p : Page) (e : event) (r : ProcessingStatus) (a : action).

Lemma stage_is_exclusive r :
  stage_is r "ready" = true -> stage_is r "needs_clarification" = false.
Proof.
  unfold stage_is. intros H%bool_decide_eq_true.
  apply bool_decide_eq_false. rewrite H. vm_compute. congruence.
Qed.

(** *** Counting actions *)

Lemma count_app a p p' (l : list action) :
  trace p' = trace p ++ l ->
  count a p' = (count a p + length (filter (fun x => x = a) l))%nat.
Proof. unfold count. intros ->. by rewrite filter_app, length_app. Qed.

(** *** What the view depends on *)

Lemma render_ext p p' :
  token p' = token p -> status p' = status p -> error p' = error p ->
  showClarification p' = showClarification p ->
  render p' = render p.
Proof. unfold render. by intros -> -> -> ->. Qed.

(** *** One commit *)

Lemma run_child_spec p :
  token (fst (run_child p)) = token p /\
  status (fst (run_child p)) = status p /\
  error (fst (run_child p)) = error p /\
  showClarification (fst (run_child p)) = showClarification p /\
  poller (fst (run_child p)) = poller p /\
  effectDeps (fst (run_child p)) = effectDeps p /\
  child (fst (run_child p)) = child_of (render p) /\
  snd (run_child p) = asks p /\
  trace (fst (run_child p))
    = trace p ++ (if completes p then [Completed] else []).
Proof.
  unfold run_child, asks, completes.
  destruct (child_fires p) as [s|]; simpl; [done|].
  by rewrite app_nil_r.
Qed.

Lemma run_poll_effect_spec p :
  token (run_poll_effect p) = token p /\
  status (run_poll_effect p) = status p /\
  error (run_poll_effect p) = error p /\
  showClarification (run_poll_effect p) = showClarification p /\
  child (run_poll_effect p) = child p /\
  effectDeps (run_poll_effect p) = Some (showClarification p) /\
  poller (run_poll_effect p)
    = (if bool_decide (effectDeps p = Some (showClarification p)) then poller p
       else if starts_poll p then InFlight else Off) /\
  trace (run_poll_effect p) = trace p ++ (if starts_poll p then [Fetch] else []).
Proof.
  unfold run_poll_effect, starts_poll.
  case_bool_decide as Hd; simpl.
  - by rewrite app_nil_r.
  - destruct (truthy_opt (token p)), (showClarification p) eqn:Hs; simpl;
      by rewrite ?app_nil_r.
Qed.

(** The card's effect does not run again in the render that follows its
    call of [onClarificationNeeded]. *)
Lemma no_second_run p p2 s :
  child_fires p = Some s ->
  token p2 = token p -> status p2 = status p -> error p2 = error p ->
  child p2 = child_of (render p) ->
  child_fires p2 = None.
Proof.
  unfold child_fires, render. intros Hf Ht Hs He Hc.
  rewrite Hc, Ht, Hs, He. unfold render. clear Hc Ht Hs He.
  destruct (negb (truthy_opt (token p))); [done|].
  destruct (truthy_opt (error p)); [done|].
  destruct (status p) as [s0|]; [|done].
  destruct (validationErrors s0) as [[|v l]|]; try done.
  all: destruct (showClarification p), (clarification s0);
    destruct (showClarification p2); simpl in *;
    try done; by rewrite bool_decide_eq_true_2.
Qed.

(** The state after the commits that follow a change, when the
    clarification was not shown before them. *)
Lemma commit_spec p :
  truthy_opt (token p) = true ->
  showClarification p = false ->
  token (commit p) = token p /\
  status (commit p) = status p /\
  error (commit p) = error p /\
  showClarification (commit p) = asks p /\
  effectDeps (commit p) = Some (asks p) /\
  poller (commit p) =
    (if asks p then Off
     else if bool_decide (effectDeps p = Some false) then poller p
          else InFlight) /\
  child (commit p) = child_of (render (commit p)) /\
  trace (commit p) =
    trace p ++ (if completes p then [Completed] else [])
            ++ (if bool_decide (effectDeps p = Some false) then [] else [Fetch]).
Proof.
  intros Ht Hs. unfold commit, commit_once.
  destruct (run_child_spec p) as (c1 & c2 & c3 & c4 & c5 & c6 & c7 & c8 & c9).
  destruct (run_child p) as [pc q]. simpl in *. subst q.
  destruct (run_poll_effect_spec pc) as (e1 & e2 & e3 & e4 & e5 & e6 & e7 & e8).
  assert (Hsp : starts_poll pc = negb (bool_decide (effectDeps p = Some false))).
  { unfold starts_poll. rewrite c6, c4, c1, Hs, Ht.
    by destruct (bool_decide (effectDeps p = Some false)). }
  rewrite Hsp, c6, c4, Hs in e7. rewrite Hsp in e8. rewrite c4, Hs in e6.
  set (pe := run_poll_effect pc) in *.
  assert (Hse : showClarification pe = false) by congruence.
  rewrite Hse, andb_true_r.
  destruct (asks p) eqn:Ha.
  - set (p2 := with_showClarification true pe).
    destruct (run_child_spec p2) as (d1 & d2 & d3 & d4 & d5 & d6 & d7 & d8 & d9).
    destruct (run_child p2) as [pc2 q2]. simpl in *.
    destruct (run_poll_effect_spec pc2) as (f1 & f2 & f3 & f4 & f5 & f6 & f7 & f8).
    assert (Hnf : child_fires p2 = None).
    { unfold asks in Ha. destruct (child_fires p) as [s|] eqn:Hf; [|done].
      apply (no_second_run p p2 s Hf); simpl; congruence. }
    assert (Hsp2 : starts_poll pc2 = false).
    { unfold starts_poll. rewrite d4. simpl. by rewrite andb_false_r. }
    unfold completes in d9. rewrite Hnf in d9.
    rewrite Hsp2 in f7, f8. rewrite d6, d4 in f7. simpl in f7.
    rewrite e6 in f7. rewrite bool_decide_eq_false_2 in f7 by done.
    rewrite d4 in f6. simpl in f6.
    repeat split; try congruence.
    + rewrite f5, d7. f_equal. symmetry. apply render_ext; simpl; congruence.
    + rewrite f8, d9, !app_nil_r. simpl. rewrite e8, c9.
      rewrite <- app_assoc. f_equal. f_equal.
      by destruct (bool_decide (effectDeps p = Some false)).
  - repeat split; try congruence.
    + rewrite e7. by destruct (bool_decide (effectDeps p = Some false)).
    + rewrite e5, c7. f_equal. symmetry. apply render_ext; congruence.
    + rewrite e8, c9, <- app_assoc. f_equal. f_equal.
      by destruct (bool_decide (effectDeps p = Some false)).
Qed.

(** *** The view and the card after a status *)

Lemma render_unshown p s :
  truthy_opt (token p) = true -> truthy_opt (error p) = false ->
  status p = Some s -> showClarification p = false ->
  render p =
    match validationErrors s with
    | Some ((_ :: _) as errors) => ValidationErrorsView errors (validationWarnings s)
    | _ => ProgressView s (cancel_button s)
    end.
Proof.
  intros Ht He Hs Hc. unfold render. rewrite Ht, He, Hs, Hc. simpl.
  by destruct (validationErrors s) as [[|]|].
Qed.

Lemma child_fires_unshown p s :
  truthy_opt (token p) = true -> truthy_opt (error p) = false ->
  status p = Some s -> showClarification p = false ->
  child_fires p =
    if has_validation_errors s || bool_decide (child p = Some (stage s))
    then None else Some s.
Proof.
  intros Ht He Hs Hc. unfold child_fires.
  rewrite (render_unshown p s Ht He Hs Hc). unfold has_validation_errors.
  by destruct (validationErrors s) as [[|]|].
Qed.

Lemma child_fires_inv p s :
  child_fires p = Some s ->
  status p = Some s /\ render p = ProgressView s (cancel_button s).
Proof.
  unfold child_fires, render.
  destruct (negb (truthy_opt (token p))); [done|].
  destruct (truthy_opt (error p)); [done|].
  destruct (status p) as [s0|]; [|done].
  destruct (validationErrors s0) as [[|v l]|]; try done.
  all: destruct (showClarification p), (clarification s0); try done.
  all: case_bool_decide; try done; by intros [= ->].
Qed.

(** The page after a status, from a page that does not show the
    clarification and whose polling effect ran for that. *)
Lemma on_status_spec p r :
  truthy_opt (token p) = true ->
  showClarification p = false ->
  effectDeps p = Some false ->
  token (on_status r p) = token p /\
  status (on_status r p) = Some r /\
  error (on_status r p) = None /\
  showClarification (on_status r p)
    = card_runs p r && stage_is r "needs_clarification" /\
  effectDeps (on_status r p)
    = Some (card_runs p r && stage_is r "needs_clarification") /\
  poller (on_status r p) =
    (if card_runs p r && stage_is r "needs_clarification" then Off
     else if shouldContinuePolling r then Waiting else Idle) /\
  child (on_status r p) = child_of (render (on_status r p)) /\
  trace (on_status r p)
    = trace p ++ (if card_runs p r && stage_is r "ready" then [Completed] else []).
Proof.
  intros Ht Hs Hd. unfold on_status.
  set (p0 := {| token := token p; status := Some r |}).
  destruct (commit_spec p0 Ht Hs) as (c1 & c2 & c3 & c4 & c5 & c6 & c7 & c8).
  assert (Hf : child_fires p0 = if card_runs p r then Some r else None).
  { rewrite (child_fires_unshown p0 r Ht eq_refl eq_refl Hs). unfold card_runs. simpl.
    by destruct (has_validation_errors r), (bool_decide (child p = Some (stage r))). }
  assert (Ha : asks p0 = card_runs p r && stage_is r "needs_clarification").
  { unfold asks, calls_onClarificationNeeded. rewrite Hf.
    destruct (card_runs p r); simpl; [by rewrite andb_true_r|done]. }
  assert (Hc : completes p0 = card_runs p r && stage_is r "ready").
  { unfold completes, calls_onComplete. rewrite Hf. by destruct (card_runs p r). }
  rewrite Ha in c4, c5, c6. rewrite Hc in c8.
  simpl in c6, c8. rewrite Hd in c6, c8.
  rewrite bool_decide_eq_true_2 in c6, c8 by done. rewrite app_nil_r in c8.
  done.
Qed.

(** *** Every page that can arise is consistent *)

Lemma mount_spec (tok : list N) :
  truthy_str tok = true ->
  token (mount (Some tok)) = Some tok /\
  status (mount (Some tok)) = None /\
  error (mount (Some tok)) = None /\
  showClarification (mount (Some tok)) = false /\
  effectDeps (mount (Some tok)) = Some false /\
  poller (mount (Some tok)) = InFlight /\
  child (mount (Some tok)) = None /\
  trace (mount (Some tok)) = [Fetch].
Proof.
  intros Ht. unfold mount.
  set (p0 := {| token := Some tok; status := None |}).
  destruct (commit_spec p0 Ht eq_refl) as (c1 & c2 & c3 & c4 & c5 & c6 & c7 & c8).
  assert (Hf : child_fires p0 = None).
  { unfold child_fires, render. simpl. by rewrite Ht. }
  unfold asks in c4, c5, c6. unfold completes in c8. rewrite Hf in *.
  simpl in *. repeat split; try done.
  rewrite c7. unfold render. rewrite c1, c2, c3. simpl. by rewrite Ht.
Qed.

Lemma mount_consistent (tok : list N) :
  truthy_str tok = true -> consistent (mount (Some tok)).
Proof.
  intros Ht.
  destruct (mount_spec tok Ht) as (m1 & m2 & m3 & m4 & m5 & m6 & m7 & m8).
  split.
  - by rewrite m1.
  - by rewrite m5, m4.
  - by rewrite m4.
  - by rewrite m4.
  - intros _ s. by rewrite m2.
  - rewrite m7. unfold render. rewrite m1, m2, m3. simpl. by rewrite Ht.
Qed.

Lemma polling_unshown p :
  consistent p -> poller p = InFlight \/ poller p = Waiting ->
  showClarification p = false /\ effectDeps p = Some false.
Proof.
  intros Hc Hp.
  assert (Hs : showClarification p = false).
  { destruct (showClarification p) eqn:E; [|done].
    rewrite (shown_means_off p Hc E) in Hp. by destruct Hp. }
  split; [done|]. by rewrite (deps_current p Hc), Hs.
Qed.

Lemma on_status_consistent p r :
  consistent p -> poller p = InFlight -> consistent (on_status r p).
Proof.
  intros Hc Hp.
  destruct (polling_unshown p Hc (or_introl Hp)) as [Hs Hd].
  destruct (on_status_spec p r (has_token p Hc) Hs Hd)
    as (s1 & s2 & s3 & s4 & s5 & s6 & s7 & s8).
  split.
  - rewrite s1. apply (has_token p Hc).
  - by rewrite s5, s4.
  - intros H. rewrite s6. rewrite s4 in H. by rewrite H.
  - intros H. exists r. split; [done|]. rewrite s4 in H.
    by apply andb_prop in H as [_ ?].
  - rewrite s6, s2. intros H s [= <-].
    destruct (card_runs p r && stage_is r "needs_clarification");
      [by destruct H|].
    unfold shouldContinuePolling in H.
    destruct (stage_is r "ready"), (stage_is r "needs_clarification");
      simpl in H; try done; by destruct H.
  - done.
Qed.

Lemma on_failure_consistent p (message : list N) :
  consistent p -> poller p = InFlight -> consistent (on_failure message p).
Proof.
  intros Hc Hp.
  destruct (polling_unshown p Hc (or_introl Hp)) as [Hs Hd].
  unfold on_failure.
  set (p0 := {| token := token p; status := status p |}).
  destruct (commit_spec p0 (has_token p Hc) Hs)
    as (c1 & c2 & c3 & c4 & c5 & c6 & c7 & c8).
  simpl in c6. rewrite Hd in c6. rewrite bool_decide_eq_true_2 in c6 by done.
  split.
  - rewrite c1. apply (has_token p Hc).
  - by rewrite c5, c4.
  - intros H. rewrite c4 in H. by rewrite c6, H.
  - intros H. rewrite c4 in H. unfold asks in H.
    destruct (child_fires p0) as [s|] eqn:Hf; [|done].
    destruct (child_fires_inv p0 s Hf) as [Hst _].
    exists s. split; [by rewrite c2|].
    unfold calls_onClarificationNeeded in H. by apply andb_prop in H as [? _].
  - rewrite c6. intros H. destruct (asks p0); by destruct H.
  - done.
Qed.

Lemma on_timer_consistent p :
  consistent p -> poller p = Waiting -> consistent (on_timer p).
Proof.
  intros Hc Hp.
  destruct (polling_unshown p Hc (or_intror Hp)) as [Hs Hd].
  split; simpl.
  - apply (has_token p Hc).
  - apply (deps_current p Hc).
  - by rewrite Hs.
  - by rewrite Hs.
  - intros _. apply (polling_stage p Hc). by right.
  - apply (child_mounted p Hc).
Qed.

Lemma clarification_view_inv p (c : ClarificationState) :
  render p = ClarificationView c ->
  showClarification p = true /\
  truthy_opt (error p) = false /\
  exists s, status p = Some s /\ has_validation_errors s = false /\
            clarification s = Some c.
Proof.
  unfold render, has_validation_errors.
  destruct (negb (truthy_opt (token p))); [done|].
  destruct (truthy_opt (error p)); [done|].
  destruct (status p) as [s|]; [|done].
  destruct (validationErrors s) as [[|]|] eqn:Hve; try done.
  all: destruct (showClarification p), (clarification s) eqn:Hcl; try done.
  all: intros [= ->]; repeat split; exists s; by rewrite Hve.
Qed.

(** The page that shows the clarification, one resolution later: one fetch
    has been issued, and the page shows the clarification again, with no
    run of the polling effect alive. *)
Lemma resume_spec p (c : ClarificationState) :
  consistent p -> render p = ClarificationView c ->
  token (resume p) = token p /\
  status (resume p) = status p /\
  error (resume p) = error p /\
  showClarification (resume p) = true /\
  effectDeps (resume p) = Some true /\
  poller (resume p) = Off /\
  child (resume p) = None /\
  render (resume p) = ClarificationView c /\
  trace (resume p) = trace p ++ [Fetch].
Proof.
  intros Hc Hv.
  destruct (clarification_view_inv p c Hv) as (Hshow & He & s' & Hst' & Hve & _).
  destruct (shown_means_asked p Hc Hshow) as (s & Hst & Hask).
  assert (s' = s) as -> by congruence. clear Hst'.
  assert (Hch : child p = None).
  { rewrite (child_mounted p Hc), Hv. done. }
  unfold resume. rewrite Hshow.
  set (p0 := with_showClarification false p).
  destruct (commit_spec p0 (has_token p Hc) eq_refl)
    as (c1 & c2 & c3 & c4 & c5 & c6 & c7 & c8).
  assert (Hf : child_fires p0 = Some s).
  { rewrite (child_fires_unshown p0 s (has_token p Hc) He Hst eq_refl).
    simpl. rewrite Hve, Hch. simpl. by case_bool_decide. }
  assert (Ha : asks p0 = true).
  { unfold asks, calls_onClarificationNeeded. rewrite Hf, Hask. done. }
  assert (Hcp : completes p0 = false).
  { unfold completes, calls_onComplete. rewrite Hf.
    destruct (stage_is s "ready") eqn:E; [|done].
    by rewrite (stage_is_exclusive s E) in Hask. }
  rewrite Ha in c4, c5, c6. rewrite Hcp in c8. simpl in c6, c8.
  rewrite (deps_current p Hc), Hshow in c8.
  rewrite bool_decide_eq_false_2 in c8 by done.
  assert (Hr : render (commit p0) = ClarificationView c).
  { rewrite <- Hv.
    apply render_ext; [by rewrite c1|by rewrite c2|by rewrite c3|by rewrite c4]. }
  repeat split; try done. by rewrite c7, Hr.
Qed.

Lemma resume_consistent p (c : ClarificationState) :
  consistent p -> render p = ClarificationView c -> consistent (resume p).
Proof.
  intros Hc Hv.
  destruct (resume_spec p c Hc Hv)
    as (r1 & r2 & r3 & r4 & r5 & r6 & r7 & r8 & r9).
  destruct (clarification_view_inv p c Hv) as (Hshow & _).
  split.
  - rewrite r1. apply (has_token p Hc).
  - by rewrite r5, r4.
  - done.
  - intros _. rewrite r2. apply (shown_means_asked p Hc Hshow).
  - rewrite r6. intros H. by destruct H.
  - by rewrite r7, r8.
Qed.

Lemma emit_consistent p (l : list action) : consistent p -> consistent (emit l p).
Proof. intros [H1 H2 H3 H4 H5 H6]. by split. Qed.

Lemma step_consistent p e : consistent p -> consistent (step p e).
Proof.
  intros Hc. destruct e as [r|m| |o|o|]; simpl.
  - case_bool_decide; [by apply on_status_consistent|done].
  - case_bool_decide; [by apply on_failure_consistent|done].
  - case_bool_decide; [by apply on_timer_consistent|done].
  - destruct (render p) as [| | |c| |] eqn:Hv; try done.
    destruct (truthy_opt (token p) && _); [|done].
    by apply (resume_consistent p c).
  - destruct (render p) as [| | |c| |] eqn:Hv; try done.
    destruct (truthy_opt (token p) && _); [|done].
    by apply (resume_consistent p c).
  - destruct (render p) as [| | | |s b|]; try done.
    destruct (Progress.render s); [|done].
    by apply emit_consistent.
Qed.

Lemma reachable_consistent p : reachable p -> consistent p.
Proof.
  induction 1 as [tok Ht|p e _ IH].
  - by apply mount_consistent.
  - by apply step_consistent.
Qed.

End PageFacts.

Section PageLemmas.
Import Progress Page Lifetime.
Implicit Types (p : Page) (e : event) (r : ProcessingStatus) (a : action).

(** *** A page with nothing pending *)

Lemma quiet_step p e :
  quiet p -> resolves_clarification e = false ->
  quiet (step p e) /\ count Fetch (step p e) = count Fetch p.
Proof.
  intros Hq He.
  assert (H1 : bool_decide (poller p = InFlight) = false).
  { apply bool_decide_eq_false. destruct Hq as [-> | ->]; done. }
  assert (H2 : bool_decide (poller p = Waiting) = false).
  { apply bool_decide_eq_false. destruct Hq as [-> | ->]; done. }
  destruct e as [r|m| |o|o|]; simpl; rewrite ?H1, ?H2; try done.
  - simpl in He. rewrite He, andb_false_r. by destruct (render p).
  - simpl in He. rewrite He, andb_false_r. by destruct (render p).
  - destruct (render p) as [| | | |s b|]; try done.
    destruct (Progress.render s); [|done].
    split; [done|]. rewrite (count_app Fetch p (emit [ErrorCallback] p) [ErrorCallback] eq_refl).
    simpl. lia.
Qed.

Lemma quiet_run p (es : list event) :
  quiet p -> Forall (fun e => resolves_clarification e = false) es ->
  quiet (run p es) /\ count Fetch (run p es) = count Fetch p.
Proof.
  intros Hq Hes. revert p Hq.
  induction Hes as [|e es He _ IH]; intros p Hq; [done|].
  destruct (quiet_step p e Hq He) as [Hq' Hc'].
  destruct (IH (step p e) Hq') as [Hq'' Hc''].
  simpl. split; [done|]. by rewrite Hc''.
Qed.

Lemma render_progress_status p s (b : bool) :
  render p = ProgressView s b -> status p = Some s.
Proof.
  unfold render.
  destruct (negb (truthy_opt (token p))); [done|].
  destruct (truthy_opt (error p)); [done|].
  destruct (status p) as [s0|]; [|done].
  destruct (validationErrors s0) as [[|]|]; try done.
  all: destruct (showClarification p), (clarification s0); try done.
  all: by intros [= -> _].
Qed.

(** The view of a page that has a token, no transport error and a status. *)
Lemma render_with_status p r :
  truthy_opt (token p) = true -> error p = None -> status p = Some r ->
  render p =
    match validationErrors r with
    | Some ((_ :: _) as errors) => ValidationErrorsView errors (validationWarnings r)
    | _ =>
        match showClarification p, clarification r with
        | true, Some c => ClarificationView c
        | _, _ => ProgressView r (cancel_button r)
        end
    end.
Proof. intros Ht He Hs. unfold render. by rewrite Ht, He, Hs. Qed.

(** While a poll is alive the card does not show [ready]. *)
Lemma polling_card_not_ready p r :
  consistent p -> poller p = InFlight ->
  stage_is r "ready" = true ->
  bool_decide (child p = Some (stage r)) = false.
Proof.
  intros Hc Hp Hr. apply bool_decide_eq_false. intros Hch.
  rewrite (child_mounted p Hc) in Hch.
  destruct (render p) as [| | | |s b|] eqn:Hv; try done.
  simpl in Hch. injection Hch as Hst.
  apply render_progress_status in Hv.
  destruct (polling_stage p Hc (or_introl Hp) s Hv) as [Hn _].
  unfold stage_is in Hn, Hr. rewrite Hst in Hn. congruence.
Qed.

(** While a poll is alive the card does not show [needs_clarification]. *)
Lemma polling_card_not_asking p r :
  consistent p -> poller p = InFlight ->
  stage_is r "needs_clarification" = true ->
  bool_decide (child p = Some (stage r)) = false.
Proof.
  intros Hc Hp Hr. apply bool_decide_eq_false. intros Hch.
  rewrite (child_mounted p Hc) in Hch.
  destruct (render p) as [| | | |s b|] eqn:Hv; try done.
  simpl in Hch. injection Hch as Hst.
  apply render_progress_status in Hv.
  destruct (polling_stage p Hc (or_introl Hp) s Hv) as [_ Hn].
  unfold stage_is in Hn, Hr. rewrite Hst in Hn. congruence.
Qed.

(** What is rendered once the status of the fetch in flight is in. *)
Lemma render_after_status p r :
  reachable p -> poller p = InFlight ->
  render (step p (StatusArrived r)) = view_of_status r.
Proof.
  intros Hr Hp. apply reachable_consistent in Hr as Hc.
  destruct (polling_unshown p Hc (or_introl Hp)) as [Hs Hd].
  destruct (on_status_spec p r (has_token p Hc) Hs Hd)
    as (s1 & s2 & s3 & s4 & _).
  simpl. rewrite (bool_decide_eq_true_2 _ Hp).
  assert (Ht : truthy_opt (token (on_status r p)) = true).
  { rewrite s1. apply (has_token p Hc). }
  rewrite (render_with_status _ r Ht s3 s2), s4.
  unfold view_of_status, card_runs, has_validation_errors.
  destruct (validationErrors r) as [[|v l]|]; simpl; try done.
  all: destruct (stage_is r "needs_clarification") eqn:Hn;
    [rewrite (polling_card_not_asking p r Hc Hp Hn)|rewrite andb_false_r];
    simpl; by destruct (clarification r).
Qed.

(** The page after a transport failure of the fetch in flight. *)
Lemma on_failure_spec p (message : list N) :
  consistent p -> poller p = InFlight ->
  token (on_failure message p) = token p /\
  status (on_failure message p) = status p /\
  error (on_failure message p) = Some message /\
  showClarification (on_failure message p) = false /\
  poller (on_failure message p) = Idle /\
  trace (on_failure message p) = trace p.
Proof.
  intros Hc Hp.
  destruct (polling_unshown p Hc (or_introl Hp)) as [Hs Hd].
  unfold on_failure.
  set (p0 := {| token := token p; status := status p |}).
  destruct (commit_spec p0 (has_token p Hc) Hs)
    as (c1 & c2 & c3 & c4 & c5 & c6 & c7 & c8).
  assert (Hfire : forall s, child_fires p0 = Some s ->
            stage_is s "ready" = false /\
            stage_is s "needs_clarification" = false).
  { intros s Hf. destruct (child_fires_inv p0 s Hf) as [Hst _].
    apply (polling_stage p Hc (or_introl Hp) s Hst). }
  assert (Ha : asks p0 = false).
  { unfold asks, calls_onClarificationNeeded.
    destruct (child_fires p0) as [s|]; [|done].
    destruct (Hfire s eq_refl) as [_ ->]. done. }
  assert (Hcp : completes p0 = false).
  { unfold completes, calls_onComplete.
    destruct (child_fires p0) as [s|]; [|done].
    by destruct (Hfire s eq_refl) as [-> _]. }
  rewrite Ha in c4, c6. rewrite Hcp in c8. simpl in c6, c8.
  rewrite Hd in c6, c8. rewrite bool_decide_eq_true_2 in c6, c8 by done.
  simpl in c8. rewrite app_nil_r in c8. done.
Qed.

(** Once the polling has ended no event starts it again: the status, the
    transport error and the number of fetches and completions stay what
    they are. *)
Lemma ended_step p e :
  ended p ->
  ended (step p e) /\ status (step p e) = status p /\
  error (step p e) = error p /\
  count Fetch (step p e) = count Fetch p /\
  count Completed (step p e) = count Completed p.
Proof.
  intros [Hq Hs].
  assert (H1 : bool_decide (poller p = InFlight) = false).
  { apply bool_decide_eq_false. destruct Hq as [-> | ->]; done. }
  assert (H2 : bool_decide (poller p = Waiting) = false).
  { apply bool_decide_eq_false. destruct Hq as [-> | ->]; done. }
  assert (H3 : forall c, render p <> ClarificationView c).
  { intros c Hv. destruct (clarification_view_inv p c Hv) as [Hshow _].
    congruence. }
  destruct e as [r|m| |o|o|]; simpl; rewrite ?H1, ?H2; try done.
  - destruct (render p) as [| | |c| |] eqn:Hv; try done. by destruct (H3 c).
  - destruct (render p) as [| | |c| |] eqn:Hv; try done. by destruct (H3 c).
  - destruct (render p) as [| | | |s b|]; try done.
    destruct (Progress.render s); [|done].
    repeat split; try done.
    + rewrite (count_app Fetch p (emit [ErrorCallback] p) [ErrorCallback] eq_refl).
      simpl. lia.
    + rewrite (count_app Completed p (emit [ErrorCallback] p) [ErrorCallback]
                 eq_refl).
      simpl. lia.
Qed.

Lemma ended_run p (es : list event) :
  ended p ->
  ended (run p es) /\ status (run p es) = status p /\
  error (run p es) = error p /\
  count Fetch (run p es) = count Fetch p /\
  count Completed (run p es) = count Completed p.
Proof.
  revert p. induction es as [|e es IH]; intros p Hd; [done|].
  destruct (ended_step p e Hd) as (Hd' & E1 & E2 & E3 & E4).
  destruct (IH (step p e) Hd') as (Hd'' & F1 & F2 & F3 & F4).
  change (run p (e :: es)) with (run (step p e) es).
  split; [exact Hd''|]. repeat split; congruence.
Qed.

(** A status, and a failure, that no live run of the polling effect awaits
    is discarded ([isMounted] is false): the page stays as it is. *)
Lemma status_dropped p r :
  poller p <> InFlight -> step p (StatusArrived r) = p.
Proof. intros Hp. simpl. by rewrite bool_decide_eq_false_2. Qed.

Lemma failure_dropped p (message : list N) :
  poller p <> InFlight -> step p (StatusFailed message) = p.
Proof. intros Hp. simpl. by rewrite bool_decide_eq_false_2. Qed.

(** The page after the live poll has received a status at [ready]: the
    completion callback has been invoked if the card is shown, that is if
    the status has no validation errors, and the polling has ended. *)
Lemma ready_accepted p r :
  reachable p -> poller p = InFlight -> stage_is r "ready" = true ->
  status (step p (StatusArrived r)) = Some r /\
  count Fetch (step p (StatusArrived r)) = count Fetch p /\
  count Completed (step p (StatusArrived r))
    = (count Completed p + if has_validation_errors r then 0 else 1)%nat /\
  ended (step p (StatusArrived r)).
Proof.
  intros Hr Hp Hready. apply reachable_consistent in Hr as Hc.
  destruct (polling_unshown p Hc (or_introl Hp)) as [Hs Hd].
  destruct (on_status_spec p r (has_token p Hc) Hs Hd)
    as (s1 & s2 & s3 & s4 & s5 & s6 & s7 & s8).
  pose proof (stage_is_exclusive r Hready) as Hn.
  rewrite Hn, andb_false_r in s4, s6.
  assert (Hrun : card_runs p r = negb (has_validation_errors r)).
  { unfold card_runs. rewrite (polling_card_not_ready p r Hc Hp Hready).
    apply andb_true_r. }
  rewrite Hrun, Hready, andb_true_r in s8.
  simpl. rewrite (bool_decide_eq_true_2 _ Hp).
  split; [done|]. split; [|split].
  - rewrite (count_app Fetch p (on_status r p) _ s8).
    destruct (has_validation_errors r); simpl; lia.
  - rewrite (count_app Completed p (on_status r p) _ s8).
    destruct (has_validation_errors r); simpl; lia.
  - split; [|done]. unfold quiet. rewrite s6. unfold shouldContinuePolling.
    rewrite Hready. auto.
Qed.

End PageLemmas.

Section PageClaims.
Import Progress Page Lifetime.
Implicit Types (p : Page) (e : event) (r : ProcessingStatus) (a : action).

(** *** The claims *)


(** The first half of C2 holds: once a status with stage
    [needs_clarification] has arrived, nothing is pending, and no event
    other than a successful resolution of a clarification handler issues a
    status fetch. *)
Lemma suspended_until_resolution p r (es : list event) :
  reachable p -> poller p = InFlight ->
  stage_is r "needs_clarification" = true ->
  Forall (fun e => resolves_clarification e = false) es ->
  quiet (step p (StatusArrived r)) /\
  count Fetch (run (step p (StatusArrived r)) es)
    = count Fetch (step p (StatusArrived r)).
Proof.
  intros Hr Hp Hn Hes. apply reachable_consistent in Hr as Hc.
  destruct (polling_unshown p Hc (or_introl Hp)) as [Hs Hd].
  destruct (on_status_spec p r (has_token p Hc) Hs Hd)
    as (_ & _ & _ & _ & _ & s6 & _).
  simpl. rewrite (bool_decide_eq_true_2 _ Hp).
  assert (Hq : quiet (on_status r p)).
  { unfold quiet. rewrite s6. unfold shouldContinuePolling. rewrite Hn.
    rewrite andb_true_r, andb_false_r. simpl.
    destruct (card_runs p r); auto. }
  split; [done|]. by apply quiet_run.
Qed.

(** The second half does not: a page that shows the clarification issues
    one fetch when a handler resolves, and is at once back where it was,
    the clarification shown and no run of the polling effect alive. *)
Lemma resolution_returns_to_clarification p e (c : ClarificationState) :
  reachable p -> render p = ClarificationView c ->
  resolves_clarification e = true ->
  render (step p e) = ClarificationView c /\
  status (step p e) = status p /\
  showClarification (step p e) = true /\
  poller (step p e) = Off /\
  trace (step p e) = trace p ++ [Fetch].
Proof.
  intros Hr Hv He. apply reachable_consistent in Hr as Hc.
  destruct (resume_spec p c Hc Hv) as (r1 & r2 & r3 & r4 & r5 & r6 & r7 & r8 & r9).
  assert (Hs : step p e = resume p).
  { destruct e as [r|m| |o|o|]; try done; simpl in *;
      by rewrite Hv, He, (has_token p Hc). }
  by rewrite Hs.
Qed.

(** So the clarification view is never left, whatever happens. *)
Lemma clarification_never_left p (c : ClarificationState) (es : list event) :
  reachable p -> render p = ClarificationView c ->
  render (run p es) = ClarificationView c /\
  status (run p es) = status p /\
  poller (run p es) = Off.
Proof.
  intros Hr Hv. revert p Hr Hv.
  induction es as [|e es IH]; intros p Hr Hv.
  - simpl. repeat split; try done.
    destruct (clarification_view_inv p c Hv) as [Hs _].
    apply (shown_means_off p (reachable_consistent p Hr) Hs).
  - simpl.
    assert (Hstep : render (step p e) = ClarificationView c
                    /\ status (step p e) = status p).
    { destruct (clarification_view_inv p c Hv) as [Hs _].
      pose proof (shown_means_off p (reachable_consistent p Hr) Hs) as Hoff.
      destruct (resolves_clarification e) eqn:He.
      - destruct (resolution_returns_to_clarification p e c Hr Hv He)
          as (? & ? & _). done.
      - destruct e as [r|m| |o|o|]; simpl in *; rewrite ?Hoff, ?Hv; simpl;
          rewrite ?He, ?andb_false_r; done. }
    destruct Hstep as [Hv' Hs'].
    destruct (IH (step p e) (reach_step p e Hr) Hv') as (? & ? & ?).
    repeat split; try done. congruence.
Qed.

(** C3, as the code has it.  When two consecutive results both report
    [ready], the completion callback is invoked at most once over the two,
    never once per result: exactly once when the first is received by the
    live poll and has no validation errors, and not at all otherwise (with
    validation errors the validation-error view replaces the card whose
    effect calls it).  The second is never acted upon: the page after it is
    the page after the first.  And once the live poll has received the
    first, the polling has ended: nothing is pending, and no later event
    issues a fetch or invokes the callback again. *)
Theorem completion_once p r1 r2 (es : list event) :
  reachable p ->
  stage_is r1 "ready" = true -> stage_is r2 "ready" = true ->
  step (step p (StatusArrived r1)) (StatusArrived r2)
    = step p (StatusArrived r1) /\
  count Completed (run p [StatusArrived r1; StatusArrived r2])
    = (count Completed p
       + if bool_decide (poller p = InFlight)
            && negb (has_validation_errors r1) then 1 else 0)%nat /\
  (poller p = InFlight ->
     quiet (step p (StatusArrived r1)) /\
     count Fetch (run (step p (StatusArrived r1)) es) = count Fetch p /\
     count Completed (run (step p (StatusArrived r1)) es)
       = count Completed (step p (StatusArrived r1))).
Proof.
  intros Hr H1 H2.
  assert (Hsecond : step (step p (StatusArrived r1)) (StatusArrived r2)
                    = step p (StatusArrived r1)).
  { destruct (decide (poller p = InFlight)) as [Hp|Hp].
    - destruct (ready_accepted p r1 Hr Hp H1) as (_ & _ & _ & [Hq _]).
      apply status_dropped. destruct Hq as [-> | ->]; done.
    - rewrite (status_dropped p r1 Hp). by apply status_dropped. }
  split; [done|]. split.
  - change (run p [StatusArrived r1; StatusArrived r2])
      with (step (step p (StatusArrived r1)) (StatusArrived r2)).
    rewrite Hsecond.
    destruct (decide (poller p = InFlight)) as [Hp|Hp].
    + rewrite (bool_decide_eq_true_2 _ Hp).
      destruct (ready_accepted p r1 Hr Hp H1) as (_ & _ & Hcnt & _).
      rewrite Hcnt. by destruct (has_validation_errors r1).
    + rewrite (bool_decide_eq_false_2 _ Hp), (status_dropped p r1 Hp).
      cbn [andb]. lia.
  - intros Hp.
    destruct (ready_accepted p r1 Hr Hp H1) as (_ & Hf & _ & He).
    destruct (ended_run (step p (StatusArrived r1)) es He)
      as (_ & _ & _ & E3 & E4).
    split; [apply He|]. split; [congruence|done].
Qed.


End PageClaims.

(** *** The claims at sample inputs *)

Lemma mounted_reachable : Page.reachable Samples.mounted.
Proof. by apply (Page.reach_mount (lit "t")). Qed.



(** C2 fails on the code at the very input it is about.  A page receives
    a status that asks for clarification and shows the questions, with no
    run of the polling effect alive.  The answers are submitted
    successfully: one status fetch is issued, but the card, mounted again
    with the status of before, calls [onClarificationNeeded] again, so the
    run of the effect that issued the fetch is cleaned up at once; the page
    shows the questions again and drops whatever status the fetch brings. *)
Theorem resumed_poll_is_discarded :
  let shown :=
    Page.step Samples.mounted (Page.StatusArrived Samples.asks_clarification) in
  let after := Page.step shown Samples.answered in
  Page.render shown = Page.ClarificationView Samples.two_questions /\
  Page.poller shown = Page.Off /\
  Page.trace after = Page.trace shown ++ [Page.Fetch] /\
  Page.showClarification after = true /\
  Page.poller after = Page.Off /\
  Page.render after = Page.ClarificationView Samples.two_questions /\
  (forall r, Page.step after (Page.StatusArrived r) = after) /\
  Page.step after Page.TimerFired = after.
Proof.
  intros shown after.
  repeat split; try (vm_compute; reflexivity).
Qed.

(** C3 as stated fails: two consecutive results that both report [ready],
    the first with a validation error, and the completion callback is not
    invoked at all. *)
Lemma ready_with_validation_errors_never_completes :
  Progress.stage_is Samples.ready_with_validation_error "ready" = true /\
  Progress.stage_is (Samples.at_stage (lit "ready")) "ready" = true /\
  Page.count Page.Completed
    (Page.run Samples.mounted
       [Page.StatusArrived Samples.ready_with_validation_error;
        Page.StatusArrived (Samples.at_stage (lit "ready"))])
  = 0%nat.
Proof. repeat split; vm_compute; reflexivity. Qed.

(** The theorem at two plain [ready] results after the mount. *)
Lemma completion_once_witness :
  Page.count Page.Completed
    (Page.run Samples.mounted
       [Page.StatusArrived (Samples.at_stage (lit "ready"));
        Page.StatusArrived (Samples.at_stage (lit "ready"))])
  = 1%nat.
Proof.
  destruct (completion_once Samples.mounted (Samples.at_stage (lit "ready"))
              (Samples.at_stage (lit "ready")) [] mounted_reachable
              ltac:(vm_compute; reflexivity) ltac:(vm_compute; reflexivity))
    as (_ & H & _).
  exact H.
Defined.



(** An error does not always bring the error card: a status at
    [needs_clarification] that carries an error and a clarification payload
    shows the questions, and there is no retry button to press. *)
Lemma error_with_questions_shows_the_questions :
  Progress.has_error Samples.failed_while_asking = true /\
  Page.render
    (Page.step Samples.mounted (Page.StatusArrived Samples.failed_while_asking))
  = Page.ClarificationView Samples.two_questions /\
  Page.step
    (Page.step Samples.mounted (Page.StatusArrived Samples.failed_while_asking))
    Page.RetryClicked
  = Page.step Samples.mounted (Page.StatusArrived Samples.failed_while_asking).
Proof. repeat split; vm_compute; reflexivity. Qed.

(* ===================================================================== *)
(** * Further properties *)
(* ===================================================================== *)

(** ** The gateway client: headers and outcomes *)

Section MoreApiFacts.
Import Api.
Variable API_BASE : list N.
Variable Number_toString : float -> list N.
Implicit Types (net : FetchCall -> option Response) (endpoint : list N)
  (options : RequestOptions) (response : Response) (k : list N).

(** The headers the caller passed, if any. *)
Lemma caller_headers_lookup options k :
  (match opt_headers options with
   | Some existing => existing ∪ ∅
   | None => ∅
   end : gmap (list N) (list N)) !! k
  = opt_headers options ≫= (fun h => h !! k).
Proof.
  destruct (opt_headers options) as [h|]; simpl.
  - by rewrite (right_id_L ∅ (∪)).
  - apply lookup_empty.
Qed.

(** Every header of the call, by name: the content type is the client's
    for every body but a file bundle, whatever the caller passed; the
    authorization is the bearer token whenever a non-empty token is given,
    whatever the caller passed; every other header, and these two in the
    other cases, is the caller's own. *)
Theorem request_headers_lookup options k :
  request_headers options !! k =
    if bool_decide (k = lit "Content-Type")
       && negb (match opt_body options with FormData _ => true | _ => false end)
    then Some (lit "application/json")
    else if bool_decide (k = lit "Authorization")
            && truthy_opt (opt_token options)
    then Some (lit "Bearer " ++ default [] (opt_token options))
    else opt_headers options ≫= (fun h => h !! k).
Proof.
  unfold request_headers.
  assert (Hne : lit "Content-Type" <> lit "Authorization")
    by (vm_compute; congruence).
  pose proof (caller_headers_lookup options k) as Hc.
  set (h0 := match opt_headers options with
             | Some existing => existing ∪ ∅
             | None => ∅
             end : gmap (list N) (list N)) in *.
  assert (Hauth :
    (match opt_token options with
     | Some token =>
         if truthy_str token
         then <[lit "Authorization" := lit "Bearer " ++ token]> h0 else h0
     | None => h0
     end) !! k
    = if bool_decide (k = lit "Authorization") && truthy_opt (opt_token options)
      then Some (lit "Bearer " ++ default [] (opt_token options))
      else opt_headers options ≫= (fun h => h !! k)).
  { destruct (opt_token options) as [tok|]; simpl;
      [destruct (truthy_str tok)|]; rewrite ?andb_false_r; try done.
    rewrite andb_true_r. case_bool_decide as Hk.
    - subst k. apply lookup_insert_eq.
    - by rewrite lookup_insert_ne. }
  destruct (decide (k = lit "Content-Type")) as [->|Hk].
  - rewrite (bool_decide_eq_true_2 (lit "Content-Type" = lit "Content-Type"))
      by done.
    destruct (opt_body options); simpl.
    + apply lookup_insert_eq.
    + apply lookup_insert_eq.
    + exact Hauth.
  - rewrite (bool_decide_eq_false_2 (k = lit "Content-Type")) by done. simpl.
    destruct (opt_body options); rewrite ?lookup_insert_ne by done;
      exact Hauth.
Qed.

(** [request] resolves, and to [v], exactly when [fetch] resolved with a
    response whose status is in 200-299 and whose body parses to [v]. *)
Theorem request_resolves_iff net endpoint options (v : json) :
  request API_BASE Number_toString net endpoint options = inr v <->
  exists response,
    net (call_of API_BASE endpoint options) = Some response /\
    ok response = true /\ parsed response = Some v.
Proof.
  unfold request. split.
  - destruct (net (call_of API_BASE endpoint options)) as [response|];
      [|discriminate].
    destruct (parsed response) as [data|] eqn:Hp; [|discriminate].
    destruct (ok response) eqn:Hok; simpl.
    + intros [= ->]. by exists response.
    + destruct (get_prop data (lit "error")); [|discriminate].
      destruct (get_prop data (lit "message")); discriminate.
  - intros (response & -> & -> & ->). reflexivity.
Qed.

(** An [ApiError] is thrown for a non-2xx response only and carries its
    status.  Its code is never falsy.  Its message is the string made of
    the body's [message], or of the generic text when that is absent or
    falsy; so it is never empty when the body's [message] is absent, falsy
    or a string. *)
Theorem ApiError_code_and_message net endpoint options (e : ApiError) :
  request API_BASE Number_toString net endpoint options
  = inl (ThrowApiError e) ->
  exists response data m,
    net (call_of API_BASE endpoint options) = Some response /\
    ok response = false /\ parsed response = Some data /\
    err_status e = status response /\
    truthy (err_code e) = true /\
    get_prop data (lit "message") = Some m /\
    ToString Number_toString (or_else m (JStr (lit "An error occurred")))
    = Some (err_message e) /\
    (m = None \/ (exists v, m = Some v /\ truthy v = false)
     \/ (exists text, m = Some (JStr text)) ->
     truthy_str (err_message e) = true).
Proof.
  unfold request.
  destruct (net (call_of API_BASE endpoint options)) as [response|];
    [|discriminate].
  destruct (parsed response) as [data|] eqn:Hp; [|discriminate].
  destruct (ok response) eqn:Hok; simpl; [discriminate|].
  destruct (get_prop data (lit "error")) as [x|]; [|discriminate].
  destruct (get_prop data (lit "message")) as [y|] eqn:Hy; [|discriminate].
  unfold new_ApiError.
  destruct (ToString Number_toString
              (or_else y (JStr (lit "An error occurred")))) as [text|] eqn:Ht;
    [|discriminate].
  intros [= <-]. simpl. exists response, data, y.
  repeat split; try done.
  - destruct x as [w|]; simpl; [|done]. by destruct (truthy w) eqn:Hw.
  - intros [->|[(v & -> & Hv)|(s & ->)]]; simpl in Ht.
    + by injection Ht as <-.
    + rewrite Hv in Ht. by injection Ht as <-.
    + destruct (truthy_str s) eqn:Hs; simpl in Ht; injection Ht as <-; done.
Qed.

End MoreApiFacts.

(** The theorem at the 401 of before, whose body has no message. *)
Lemma ApiError_code_and_message_witness :
  exists response data m,
    Api.ok response = false /\ Api.parsed response = Some data /\
    get_prop data (lit "message") = Some m /\
    ToString Samples.integer_toString
      (or_else m (JStr (lit "An error occurred")))
    = Some (lit "An error occurred").
Proof.
  destruct (ApiError_code_and_message Samples.API Samples.integer_toString
              (fun _ => Some Samples.coded_error_response) (lit "/auth/me")
              (Samples.plain_get (lit "t"))
              {| Api.err_status := 401;
                 Api.err_code := JStr (lit "Unauthorized");
                 Api.err_message := lit "An error occurred" |}
              eq_refl)
    as (response & data & m & _ & Hok & Hp & _ & _ & Hm & Ht & _).
  exists response, data, m. done.
Defined.

(** ** The session store: login, logout and the next page load *)

Section MoreAuthFacts.
Import Eff Auth AuthActions.
Implicit Types (w : World) (me : list N -> Api.exn + MeData).

Ltac run_eff :=
  cbv [login register logout restore restore_begin restore_settle settled
       getItem setItem removeItem setToken setUser setOrganization
       setIsLoading finally catch throw modify get
       mbind eff_bind bind mret eff_ret ret].

(** A login that the gateway rejects changes nothing, neither the storage
    nor the session, and rejects with the gateway's error. *)
Theorem login_rejected_changes_nothing (e : Api.exn) me w :
  login (inl e) me w = (inl e, w) /\ register (inl e) me w = (inl e, w).
Proof. split; reflexivity. Qed.

(** A login whose second call, "who am I", is rejected rejects with that
    error after the token has been persisted and token and user have been
    set: the organization is the only thing left as it was. *)
Theorem login_without_profile (data : LoginData) (e : Api.exn) me w :
  me (login_token data) = inl e ->
  login (inr data) me w =
    (inl e,
     {| localStorage := <[TOKEN_KEY := login_token data]> (localStorage w);
        session := {| user := Some (login_user data);
                      organization := organization (session w);
                      token := Some (login_token data);
                      isLoading := isLoading (session w) |} |}).
Proof. intros H. run_eff. by rewrite H. Qed.

(** The second call is made with the token the first one returned: nothing
    else of the gateway is consulted. *)
Lemma login_asks_with_fresh_token (data : LoginData) me me' w :
  me (login_token data) = me' (login_token data) ->
  login (inr data) me w = login (inr data) me' w.
Proof. intros H. run_eff. by rewrite H. Qed.

(** Login, then a page load: when both calls of the login succeed and the
    token is not the empty string, the login fulfils; on the next load the
    restore effect sends that very token to "who am I", and with the same
    answer the session has the same token and organization, the user of
    that answer, and is initialized. *)
Theorem login_then_reload (data : LoginData) (meData : MeData) me w :
  me (login_token data) = inr meData ->
  truthy_str (login_token data) = true ->
  exists w1,
    login (inr data) me w = (inr tt, w1) /\
    token (session w1) = Some (login_token data) /\
    organization (session w1) = Some (me_organization meData) /\
    user (session w1) = Some (login_user data) /\
    restore_begin (reload w1) = (inr (Some (login_token data)), reload w1) /\
    restore me (reload w1) =
      (inr tt,
       {| localStorage := localStorage w1;
          session := {| user := Some (me_user meData);
                        organization := Some (me_organization meData);
                        token := Some (login_token data);
                        isLoading := false |} |}).
Proof.
  intros Hme Ht. eexists. split.
  - run_eff. rewrite Hme. reflexivity.
  - simpl. repeat split.
    + run_eff. simpl. rewrite lookup_insert_eq. simpl. by rewrite Ht.
    + run_eff. simpl. rewrite lookup_insert_eq. simpl. rewrite Ht, Hme.
      reflexivity.
Qed.

(** Logout, then a page load: logout needs no gateway and never throws; it
    removes the token and nothing else from the storage and clears the
    identity; on the next load the restore effect makes no call, whatever
    the gateway would answer, and ends initialized and anonymous. *)
Theorem logout_then_reload me w :
  exists w1,
    logout w = (inr tt, w1) /\
    localStorage w1 !! TOKEN_KEY = None /\
    (forall k, k <> TOKEN_KEY -> localStorage w1 !! k = localStorage w !! k) /\
    token (session w1) = None /\ user (session w1) = None /\
    organization (session w1) = None /\
    restore_begin (reload w1) = (inr None, snd (restore me (reload w1))) /\
    restore me (reload w1) =
      (inr tt,
       {| localStorage := localStorage w1;
          session := {| user := None; organization := None; token := None;
                        isLoading := false |} |}).
Proof.
  eexists. split; [reflexivity|]. simpl.
  assert (Hl : delete TOKEN_KEY (localStorage w) !! TOKEN_KEY = None)
    by apply lookup_delete_eq.
  repeat split; try done.
  - intros k Hk. by apply lookup_delete_ne.
  - run_eff. simpl. by rewrite Hl.
  - run_eff. simpl. by rewrite Hl.
Qed.

(** The home page asks the backend where to go only for a session that is
    initialized and has a user and a token; it goes to the chat exactly
    when that call resolves with a ready and available chatbot, and to the
    upload page in every other called case, a rejected call included. *)
Theorem home_redirect_routes (s : Session) (answer : Api.exn + ReadyStatus) :
  (home_redirect s answer = None <->
     isLoading s = true \/ user s = None \/ truthy_opt (token s) = false) /\
  (home_redirect s answer = Some ToChat <->
     isLoading s = false /\ is_Some (user s) /\ truthy_opt (token s) = true /\
     exists status, answer = inr status /\ ready status = true
                    /\ chatbot_available status = true).
Proof.
  unfold home_redirect.
  destruct (isLoading s), (user s) as [u|], (truthy_opt (token s)); simpl;
    rewrite ?bool_decide_eq_true_2 by eauto;
    rewrite ?bool_decide_eq_false_2 by (by intros [? ?]); simpl.
  all: split; split; try (intros H; discriminate H); try tauto.
  all: try (intros (? & ? & ? & ?); discriminate).
  all: try (intros ([? ?] & ?); discriminate).
  all: try (intros (H1 & [? H2] & ?); discriminate H2).
  - intros [H|[H|H]]; discriminate H.
  - destruct answer as [e|status]; [discriminate|].
    destruct (ready status) eqn:Hr, (chatbot_available status) eqn:Ha;
      simpl; try discriminate.
    intros _. repeat split; eauto.
  - intros (_ & _ & _ & status & -> & -> & ->). reflexivity.
Qed.

(** So a visitor whose stored token was rejected stays on the login form:
    before the restore has settled, and after it was rejected, the home
    page makes no call at all. *)
Theorem rejected_visitor_is_not_redirected w w1 (tok : list N) (e : Api.exn)
    (answer : Api.exn + ReadyStatus) :
  restore_begin w = (inr (Some tok), w1) ->
  isLoading (session w) = true ->
  home_redirect (session w1) answer = None /\
  home_redirect (session (snd (restore_settle tok (inl e) w1))) answer = None.
Proof.
  intros Hb Hl.
  assert (w1 = w) as ->.
  { revert Hb. run_eff.
    destruct (truthy_opt (localStorage w !! TOKEN_KEY)); by intros [= _ ->]. }
  split.
  - unfold home_redirect. by rewrite Hl.
  - reflexivity.
Qed.

End MoreAuthFacts.

(** The theorem at a gateway that lets Ana in and then refuses her profile. *)
Lemma login_without_profile_witness :
  Auth.localStorage
    (snd (AuthActions.login (inr MoreSamples.ana_login)
            (fun _ => inl Samples.unauthorized) MoreSamples.first_visit))
    !! Auth.TOKEN_KEY = Some (lit "fresh-token").
Proof.
  rewrite (login_without_profile MoreSamples.ana_login Samples.unauthorized
             (fun _ => inl Samples.unauthorized) MoreSamples.first_visit
             eq_refl).
  reflexivity.
Defined.

(** The theorem at Ana's first visit. *)
Lemma login_then_reload_witness :
  exists w1,
    AuthActions.login (inr MoreSamples.ana_login)
      (fun _ => inr MoreSamples.ana_me) MoreSamples.first_visit = (inr tt, w1)
    /\ Auth.token
         (Auth.session
            (snd (Auth.restore (fun _ => inr MoreSamples.ana_me)
                    (AuthActions.reload w1))))
       = Some (lit "fresh-token").
Proof.
  destruct (login_then_reload MoreSamples.ana_login MoreSamples.ana_me
              (fun _ => inr MoreSamples.ana_me) MoreSamples.first_visit
              eq_refl eq_refl)
    as (w1 & H1 & _ & _ & _ & _ & H2).
  exists w1. split; [exact H1|]. by rewrite H2.
Defined.

(** The theorem at the returning visitor of before. *)
Lemma rejected_visitor_is_not_redirected_witness :
  AuthActions.home_redirect
    (Auth.session
       (snd (Auth.restore_settle (lit "stale-token") (inl Samples.unauthorized)
               Samples.returning_visitor)))
    (inr {| AuthActions.ready := true; AuthActions.chatbot_available := true |})
  = None.
Proof.
  apply (rejected_visitor_is_not_redirected Samples.returning_visitor
           Samples.returning_visitor (lit "stale-token") Samples.unauthorized
           _ eq_refl eq_refl).
Defined.

(** ** The conversation session over several exchanges *)

Section MoreChatFacts.
Import Eff Chat Conversation.
Implicit Types (s : State) (ask : AskCall -> Api.exn + ChatResponse)
  (x : Exchange) (xs : list Exchange).

(** One invocation from a state with nothing in flight, in full. *)
Lemma sendMessage_step ask (q t0 t1 : list N) s :
  isLoading s = false ->
  (truthy_str (trim q) = false /\ sendMessage ask q t0 t1 s = s) \/
  (truthy_str (trim q) = true /\
   exists reply,
     messages (sendMessage ask q t0 t1 s)
       = messages s ++ [userMessage q t0; reply] /\
     msg_role reply = RoleAssistant /\
     isLoading (sendMessage ask q t0 t1 s) = false /\
     (truthy_opt (currentConversationId s) = true ->
        currentConversationId (sendMessage ask q t0 t1 s) = currentConversationId s
        /\ created (sendMessage ask q t0 t1 s) = created s) /\
     (truthy_opt (currentConversationId s) = false ->
        (currentConversationId (sendMessage ask q t0 t1 s) = currentConversationId s
         /\ created (sendMessage ask q t0 t1 s) = created s)
        \/ (truthy_opt (currentConversationId (sendMessage ask q t0 t1 s)) = true
            /\ created (sendMessage ask q t0 t1 s) = S (created s)))).
Proof.
  intros Hl. unfold sendMessage, sendMessage_begin. rewrite Hl, orb_false_r.
  destruct (truthy_str (trim q)) eqn:Hq; simpl; [right|by left].
  split; [done|].
  set (call := {| ask_question := q |}).
  unfold sendMessage_settle, created.
  cbv [finally catch mbind eff_bind bind settled mret eff_ret ret throw
       appendMessage notify setIsLoading setCurrentConversationId modify].
  simpl.
  destruct (ask call) as [e|response]; simpl.
  - eexists. rewrite <- app_assoc. simpl. repeat split; try done.
    all: intros _; by left.
  - destruct (truthy_opt (currentConversationId s)) eqn:Hc; simpl.
    + eexists. simpl. rewrite <- app_assoc. simpl. repeat split; try done.
      all: by rewrite List.filter_app, length_app, Nat.add_0_r.
    + destruct (truthy_str (r_conversationId response)) eqn:Hr; simpl.
      * eexists. simpl. rewrite <- app_assoc. simpl. repeat split; try done.
        all: intros _; right; simpl; rewrite Hr; split; [done|].
        all: rewrite !List.filter_app, !length_app; simpl; lia.
      * eexists. simpl. rewrite <- app_assoc. simpl. repeat split; try done.
        all: intros _; left; split; [done|].
        all: by rewrite List.filter_app, length_app, Nat.add_0_r.
Qed.

(** Over any sequence of exchanges, each left to settle before the next and
    whatever the backend answers to each: the log is the log of before
    followed, for exactly the questions that pass the guard and in their
    order, by the user's message and one assistant message; nothing is in
    flight at the end. *)
Theorem conversation_log_alternates xs s :
  isLoading s = false ->
  exists added,
    messages (converse xs s) = messages s ++ added /\
    List.map msg_role added
      = concat (List.map (fun _ => [RoleUser; RoleAssistant])
                         (List.filter passes xs)) /\
    List.map content (List.filter is_user added)
      = List.map ex_question (List.filter passes xs) /\
    length (messages (converse xs s))
      = (length (messages s) + 2 * length (List.filter passes xs))%nat /\
    isLoading (converse xs s) = false.
Proof.
  revert s. induction xs as [|x xs IH]; intros s Hl.
  - exists []. simpl. rewrite app_nil_r. repeat split; try done; lia.
  - change (converse (x :: xs) s)
      with (converse xs
              (sendMessage (ex_ask x) (ex_question x) (ex_asked x) (ex_settled x) s)).
    cbn [List.filter].
    destruct (sendMessage_step (ex_ask x) (ex_question x) (ex_asked x) (ex_settled x)
                s Hl) as [[Hq Hs]|(Hq & reply & Hm & Hr & Hl' & _)].
    + rewrite Hs. replace (passes x) with false by done. apply IH, Hl.
    + destruct (IH _ Hl') as (added & A1 & A2 & A3 & A4 & A5).
      exists ([userMessage (ex_question x) (ex_asked x); reply] ++ added).
      replace (passes x) with true by done.
      repeat split.
      * rewrite A1, Hm, <- app_assoc. done.
      * cbn [List.map concat app msg_role userMessage].
        rewrite Hr, A2. done.
      * cbn [app List.filter]. unfold is_user at 1 2.
        cbn [msg_role userMessage]. rewrite Hr.
        cbn [List.map content userMessage]. by rewrite A3.
      * rewrite A4, Hm, length_app. cbn [length]. lia.
      * exact A5.
Qed.

(** A conversation that has an identifier keeps it through every exchange,
    and the parent is never told of a new one; a conversation that has none
    tells the parent at most once, whatever the backend answers, call by
    call. *)
Theorem conversation_created_at_most_once xs s :
  isLoading s = false ->
  (truthy_opt (currentConversationId s) = true ->
     currentConversationId (converse xs s) = currentConversationId s /\
     created (converse xs s) = created s) /\
  (created (converse xs s) <= S (created s))%nat /\
  (created (converse xs s) = S (created s) ->
     truthy_opt (currentConversationId (converse xs s)) = true).
Proof.
  revert s. induction xs as [|x xs IH]; intros s Hl.
  - simpl. repeat split; try done; lia.
  - simpl.
    destruct (sendMessage_step (ex_ask x) (ex_question x) (ex_asked x) (ex_settled x)
                s Hl) as [[Hq Hs]|(Hq & reply & _ & _ & Hl' & Hk & Hn)].
    + rewrite Hs. apply IH, Hl.
    + destruct (IH _ Hl') as (B1 & B2 & B3).
      fold (converse xs
              (sendMessage (ex_ask x) (ex_question x) (ex_asked x) (ex_settled x) s)).
      destruct (truthy_opt (currentConversationId s)) eqn:Hc.
      * destruct (Hk eq_refl) as [K1 K2].
        assert (Hc' : truthy_opt (currentConversationId
                        (sendMessage (ex_ask x) (ex_question x) (ex_asked x)
                           (ex_settled x) s)) = true) by by rewrite K1.
        destruct (B1 Hc') as [C1 C2]. unfold converse in *.
        rewrite C1, C2, K1, K2. repeat split; try done; lia.
      * split; [done|].
        destruct (Hn eq_refl) as [[K1 K2]|[K1 K2]]; unfold converse in *.
        -- rewrite <- K2. split; [exact B2|]. exact B3.
        -- destruct (B1 K1) as [C1 C2]. rewrite C2, K2, C1.
           split; [lia|done].
Qed.

(** A failed exchange tells the parent nothing and leaves the conversation
    identifier alone; a successful one tells it of the message exactly
    once, after telling it of the conversation if that is new. *)
Theorem exchange_notifications call (outcome : Api.exn + ChatResponse)
    (now : list N) s :
  match outcome with
  | inl _ =>
      calls (snd (sendMessage_settle call outcome now s)) = calls s /\
      currentConversationId (snd (sendMessage_settle call outcome now s))
        = currentConversationId s
  | inr response =>
      if negb (truthy_opt (ask_conversationId call))
         && truthy_str (r_conversationId response)
      then
        calls (snd (sendMessage_settle call outcome now s))
          = calls s ++ [ConversationCreated (r_conversationId response);
                        MessageSent] /\
        currentConversationId (snd (sendMessage_settle call outcome now s))
          = Some (r_conversationId response)
      else
        calls (snd (sendMessage_settle call outcome now s))
          = calls s ++ [MessageSent] /\
        currentConversationId (snd (sendMessage_settle call outcome now s))
          = currentConversationId s
  end.
Proof.
  unfold sendMessage_settle.
  cbv [finally catch mbind eff_bind bind settled mret eff_ret ret throw
       appendMessage notify setIsLoading setCurrentConversationId modify].
  destruct outcome as [e|response]; simpl; [done|].
  destruct (negb (truthy_opt (ask_conversationId call))
            && truthy_str (r_conversationId response)); simpl; [|done].
  by rewrite <- app_assoc.
Qed.

(** When the conversation is switched while a call is pending, the reply
    still arrives: it is appended to the log of the conversation switched
    to, the question it answers is no longer there, and a conversation
    created by that call takes the place of the one switched to. *)
Theorem late_reply_lands_in_new_conversation
    (q t0 t1 : list N) s s1 call (outcome : Api.exn + ChatResponse)
    (conversationId : option (list N))
    (initialMessages : list ConversationMessage) :
  sendMessage_begin q t0 s = Some (s1, call) ->
  exists reply,
    messages (snd (sendMessage_settle call outcome t1
                     (hydrate conversationId initialMessages s1)))
      = messages (hydrate conversationId initialMessages s) ++ [reply] /\
    msg_role reply = RoleAssistant /\
    currentConversationId
      (snd (sendMessage_settle call outcome t1
              (hydrate conversationId initialMessages s1)))
      = match outcome with
        | inr response =>
            if negb (truthy_opt (currentConversationId s))
               && truthy_str (r_conversationId response)
            then Some (r_conversationId response) else conversationId
        | inl _ => conversationId
        end.
Proof.
  unfold sendMessage_begin.
  destruct (negb (truthy_str (trim q)) || isLoading s); [discriminate|].
  intros [= <- <-].
  unfold sendMessage_settle.
  cbv [finally catch mbind eff_bind bind settled mret eff_ret ret throw
       appendMessage notify setIsLoading setCurrentConversationId modify].
  destruct outcome as [e|response]; simpl.
  - eexists. repeat split; done.
  - destruct (negb (truthy_opt (currentConversationId s))
              && truthy_str (r_conversationId response)); simpl;
      eexists; repeat split; done.
Qed.

End MoreChatFacts.

(** The theorem at three asks in a fresh conversation: the first fails,
    the second is blank, the third asks the first question again. *)
Lemma conversation_log_alternates_witness :
  List.map Chat.msg_role
    (Chat.messages
       (Conversation.converse MoreSamples.three_asks Samples.fresh_chat))
  = [Chat.RoleUser; Chat.RoleAssistant; Chat.RoleUser; Chat.RoleAssistant].
Proof.
  destruct (conversation_log_alternates MoreSamples.three_asks
              Samples.fresh_chat eq_refl)
    as (added & H1 & H2 & _).
  rewrite H1. simpl. exact H2.
Defined.

(** The theorem at the same three asks: the parent hears of [c1] once. *)
Lemma conversation_created_at_most_once_witness :
  (Conversation.created
     (Conversation.converse MoreSamples.three_asks Samples.fresh_chat)
   <= 1)%nat.
Proof.
  destruct (conversation_created_at_most_once
              MoreSamples.three_asks Samples.fresh_chat eq_refl)
    as (_ & H & _).
  exact H.
Defined.

(** The theorem at a question asked in a new conversation and answered
    after the visitor has opened a persisted one. *)
Lemma late_reply_lands_in_new_conversation_witness :
  exists reply,
    Chat.messages
      (snd (Chat.sendMessage_settle
              {| Chat.ask_question := lit "ventas?";
                 Chat.ask_conversationId := None |}
              (inr Samples.sample_response) (lit "t1")
              (Chat.hydrate (Some (lit "c0")) [MoreSamples.persisted_greeting]
                 {| Chat.messages := [Chat.userMessage (lit "ventas?") (lit "t0")];
                    Chat.input := []; Chat.isLoading := true;
                    Chat.currentConversationId := None; Chat.calls := [] |})))
    = Chat.messages
        (Chat.hydrate (Some (lit "c0")) [MoreSamples.persisted_greeting]
           Samples.fresh_chat) ++ [reply].
Proof.
  destruct (late_reply_lands_in_new_conversation (lit "ventas?") (lit "t0")
              (lit "t1") Samples.fresh_chat _ _ (inr Samples.sample_response)
              (Some (lit "c0")) [MoreSamples.persisted_greeting] eq_refl)
    as (reply & H & _).
  exists reply. exact H.
Defined.

(** ** The progress card: the error text, the percentage and the stage list *)

Section MoreProgressFacts.
Import Progress StageList.
Implicit Types (s : ProcessingStatus).

(** The error card is shown exactly for a status whose error is truthy,
    an error object or a string that is not empty.  Its text is the string
    itself for a string, the message of the object when it has one that is
    not empty, and the fallback text for an object without a usable
    message; so the text is never empty. *)
Theorem error_card_text s :
  (has_error s = true <-> exists m, render s = ErrorCard m) /\
  (forall m, render s = ErrorCard m ->
     truthy_str m = true /\
     match error s with
     | Some (ErrorString e) => m = e
     | Some (ErrorObject _ (Some msg) _) =>
         m = if truthy_str msg then msg else lit "Error desconocido"
     | Some (ErrorObject _ None _) => m = lit "Error desconocido"
     | None => False
     end).
Proof.
  unfold render, has_error, progress_card. split.
  - destruct (error s) as [[e|st msg rt]|]; simpl.
    + destruct (truthy_str e); split; eauto; try done. by intros [m Hm].
    + split; eauto.
    + split; [done|]. by intros [m Hm].
  - intros m. destruct (error s) as [[e|st [msg|] rt]|]; simpl; try done.
    + destruct (truthy_str e) eqn:He; [|done]. by intros [= <-].
    + intros [= <-]. split; [|done]. by destruct (truthy_str msg) eqn:Hm.
    + by intros [= <-].
Qed.

(** The index the card computes is -1 for a stage outside the declared
    order and otherwise the position of the stage in it. *)
Lemma currentStageIndex_cases s :
  (currentStageIndex s = -1 /\
   forall i, stageOrder !! i <> stage s) \/
  (currentStageIndex s = 0 /\ truthy_opt (stage s) = false) \/
  (exists i : nat, stageOrder !! i = stage s /\ is_Some (stage s) /\
                  currentStageIndex s = Z.of_nat i).
Proof.
  unfold currentStageIndex.
  destruct (stage s) as [name|]; [|right; left; done].
  destruct (truthy_str name) eqn:Ht; [|right; left; done].
  unfold indexOf, stageOrder, indexOf_from, str_eqb.
  repeat (case_bool_decide;
          [right; right; subst name;
           first [by exists 0%nat|by exists 1%nat|by exists 2%nat|by exists 3%nat
                 |by exists 4%nat|by exists 5%nat|by exists 6%nat|by exists 7%nat
                 |by exists 8%nat|by exists 9%nat] | ]).
  left. split; [done|].
  intros i Hi.
  do 10 (destruct i as [|i]; [simpl in Hi; congruence|]).
  discriminate Hi.
Qed.

(** The overall progress is a function of that index. *)
Lemma overallProgress_of_index s :
  overallProgress s
  = ((num_of_Z (currentStageIndex s) + 1)
     / num_of_Z (Z.of_nat (length stageOrder)) * 100)%float.
Proof. reflexivity. Qed.

(** The percentage displayed is always a multiple of ten between 0 and
    100; it is 100 for the stage [ready] and for no other status; it is 0
    exactly for a stage outside the declared order. *)
Theorem percentage_displayed s :
  (exists k, 0 <= k <= 10 /\ Math_round (overallProgress s) = Some (10 * k)) /\
  (Math_round (overallProgress s) = Some 100 <-> stage s = Some (lit "ready")) /\
  (Math_round (overallProgress s) = Some 0 <->
     truthy_opt (stage s) = true /\ forall i, stageOrder !! i <> stage s).
Proof.
  rewrite overallProgress_of_index.
  destruct (currentStageIndex_cases s) as [[Hc Hn]|[[Hc Hn]|(i & Hi & Hsome & Hc)]];
    rewrite Hc.
  - assert (Hr : stage s <> Some (lit "ready")).
    { intros Hs. apply (Hn 9%nat). by rewrite Hs. }
    assert (Ht : truthy_opt (stage s) = true).
    { destruct (stage s) as [name|] eqn:Hs.
      - destruct name; [|done]. exfalso. revert Hc.
        unfold currentStageIndex. by rewrite Hs.
      - exfalso. revert Hc. unfold currentStageIndex. by rewrite Hs. }
    repeat split; try (by vm_compute); try done.
    exists 0. split; [lia|]. by vm_compute.
  - assert (Hr : stage s <> Some (lit "ready")).
    { intros Hs. by rewrite Hs in Hn. }
    repeat split; try (by vm_compute); try done.
    + exists 1. split; [lia|]. by vm_compute.
    + intros [Ht _]. congruence.
  - clear Hc.
    assert (Hj : forall P : Prop, (forall j, stageOrder !! j <> stage s) -> P).
    { intros P Hn. by destruct (Hn i). }
    unfold stageOrder in Hi.
    do 10 (destruct i as [|i];
      [ simpl in Hi; rewrite <- Hi in Hj |- *;
        split; [ match goal with
                 | |- exists k, _ /\ Math_round ?x = _ =>
                     let v := eval vm_compute in (Math_round x) in
                     match v with
                     | Some ?n => exists (n / 10)
                     end
                 end;
                 split; [split; vm_compute; congruence | vm_compute; reflexivity]
               | split; split;
                   first [ by vm_compute
                         | by (intros [_ Hn]; apply Hj; exact Hn) ] ]
      | ]).
    simpl in Hi. rewrite <- Hi in Hsome. by destruct Hsome.
Qed.

(** The stage list depends on the status through its stage only. *)
Lemma stage_rows_stage s s' (stages : list (list N)) (index : Z) :
  stage s = stage s' -> stage_rows s stages index = stage_rows s' stages index.
Proof.
  intros H. revert index. induction stages as [|name rest IH]; intros index.
  - done.
  - simpl. unfold currentStageIndex. rewrite H. f_equal. apply IH.
Qed.

(** The stage list has the nine stages before [ready], in order.  No row
    ever carries two of the marks complete, current and pending.  When the
    stage of the status is the [i]-th of the declared order, every row
    carries exactly one: the rows before [i] are complete, row [i] is the
    current one, the rows after it are pending (for [ready] all nine are
    complete). *)
Theorem stage_list_marks s :
  List.map row_stage (stage_rows s (removelast stageOrder) 0)
    = removelast stageOrder /\
  (forall row, row ∈ stage_rows s (removelast stageOrder) 0 ->
     (marks row <= 1)%nat) /\
  (forall (i : nat) (name : list N),
     stage s = Some name -> stageOrder !! i = Some name ->
     List.map (fun row => (isComplete row, isCurrent row, isPending row))
              (stage_rows s (removelast stageOrder) 0)
     = List.map (fun j => (j <? i, j =? i, i <? j)%nat) (seq 0 9)).
Proof.
  split; [reflexivity|].
  assert (Hlisted : forall (i : nat) (name : list N),
            stage s = Some name -> stageOrder !! i = Some name ->
            stage_rows s (removelast stageOrder) 0
            = stage_rows (Samples.at_stage name) (removelast stageOrder) 0).
  { intros i name Hs _. by apply stage_rows_stage. }
  split.
  - intros row Hrow.
    destruct (currentStageIndex_cases s)
      as [[Hc Hn]|[[Hc Hn]|(i & Hi & [name Hs] & Hc)]].
    + assert (Hnot : forall j name, stageOrder !! j = Some name ->
                       bool_decide (stage s = Some name) = false).
      { intros j name Hj. apply bool_decide_eq_false. intros E.
        apply (Hn j). by rewrite E. }
      revert Hrow. unfold stageOrder. cbn [removelast stage_rows].
      rewrite Hc. intros Hrow.
      repeat (apply elem_of_cons in Hrow as [->|Hrow]);
        [..|by apply elem_of_nil in Hrow].
      all: unfold marks; cbn [isComplete isCurrent isPending].
      all: first [ rewrite (Hnot 0%nat _ eq_refl) | rewrite (Hnot 1%nat _ eq_refl)
                 | rewrite (Hnot 2%nat _ eq_refl) | rewrite (Hnot 3%nat _ eq_refl)
                 | rewrite (Hnot 4%nat _ eq_refl) | rewrite (Hnot 5%nat _ eq_refl)
                 | rewrite (Hnot 6%nat _ eq_refl) | rewrite (Hnot 7%nat _ eq_refl)
                 | rewrite (Hnot 8%nat _ eq_refl) ].
      all: vm_compute; lia.
    + assert (Hnot : forall name, truthy_str name = true ->
                       bool_decide (stage s = Some name) = false).
      { intros name Ht. apply bool_decide_eq_false. intros E.
        rewrite E in Hn. simpl in Hn. congruence. }
      revert Hrow. unfold stageOrder. cbn [removelast stage_rows].
      rewrite Hc. intros Hrow.
      repeat (apply elem_of_cons in Hrow as [->|Hrow]);
        [..|by apply elem_of_nil in Hrow].
      all: unfold marks; cbn [isComplete isCurrent isPending].
      all: rewrite Hnot by reflexivity; vm_compute; lia.
    + rewrite Hs in Hi. rewrite (Hlisted i name Hs Hi) in Hrow.
      revert Hrow. unfold stageOrder in Hi.
      do 10 (destruct i as [|i];
        [ simpl in Hi; injection Hi as <-; vm_compute; intros Hrow;
          repeat (apply elem_of_cons in Hrow as [->|Hrow]);
          [..|by apply elem_of_nil in Hrow]; vm_compute; lia
        | ]).
      discriminate Hi.
  - intros i name Hs Hi. rewrite (Hlisted i name Hs Hi).
    unfold stageOrder in Hi.
    do 10 (destruct i as [|i];
      [ simpl in Hi; injection Hi as <-; vm_compute; reflexivity | ]).
    discriminate Hi.
Qed.

End MoreProgressFacts.

(** The theorem at scenario A: four stages done, the fifth current. *)
Lemma stage_list_marks_witness :
  List.map (fun row => (Progress.isComplete row, Progress.isCurrent row,
                        Progress.isPending row))
    (Progress.stage_rows Samples.scenario_A
       (removelast Progress.stageOrder) 0)
  = [ (true, false, false); (true, false, false); (true, false, false);
      (true, false, false); (false, true, false); (false, false, true);
      (false, false, true); (false, false, true); (false, false, true) ].
Proof.
  destruct (stage_list_marks Samples.scenario_A) as (_ & _ & H).
  apply (H 4%nat (lit "processing_data") eq_refl eq_refl).
Defined.


(** ** The processing page over its lifetime *)

Section MorePageFacts.
Import Progress Page Lifetime.
Implicit Types (p : Page) (e : event) (r : ProcessingStatus) (a : action).





(** A status changes the page only when the run of the polling effect that
    fetched it is still alive.  Then the view is a function of that status
    alone: nothing of an earlier status, such as validation errors it had,
    shows through.  A status that no live run awaits, as the one fetched
    right after a clarification was resolved, is discarded: the page, and
    so the view, stay as they are. *)
Theorem view_is_of_latest_status p r :
  reachable p ->
  (poller p = InFlight ->
     render (step p (StatusArrived r)) = view_of_status r) /\
  (poller p <> InFlight -> step p (StatusArrived r) = p).
Proof.
  intros Hr. split; [by apply render_after_status|apply status_dropped].
Qed.







(** A transport failure that the live poll receives ends the polling for
    as long as the page lives: the page shows the failure text when it is
    not empty, keeps the status it had, and no later event, whichever,
    issues another fetch; there is no retry.  The failure of a fetch that
    no live run awaits, as the one issued right after a clarification was
    resolved, is discarded: no text is shown and the page stays as it is. *)
Theorem transport_failure_ends_polling p (message : list N) (es : list event) :
  reachable p ->
  (poller p = InFlight ->
     (truthy_str message = true ->
        render (step p (StatusFailed message)) = TransportError message) /\
     status (run (step p (StatusFailed message)) es) = status p /\
     count Fetch (run (step p (StatusFailed message)) es) = count Fetch p /\
     ended (run (step p (StatusFailed message)) es)) /\
  (poller p <> InFlight -> step p (StatusFailed message) = p).
Proof.
  intros Hr. split; [|apply failure_dropped].
  intros Hp. apply reachable_consistent in Hr as Hc.
  destruct (on_failure_spec p message Hc Hp) as (f1 & f2 & f3 & f4 & f5 & f6).
  simpl. rewrite (bool_decide_eq_true_2 _ Hp).
  assert (Hd : ended (on_failure message p)).
  { split; [|done]. left. done. }
  destruct (ended_run (on_failure message p) es Hd) as (E0 & E1 & _ & E3 & _).
  repeat split; try done; try congruence.
  - intros Hm. unfold render. rewrite f1, (has_token p Hc), f3. simpl.
    by rewrite Hm.
  - rewrite E3. unfold count. by rewrite f6.
  - apply E0.
  - apply E0.
Qed.

(** [ready] is final: after the live poll has received a status at
    [ready], no event issues another fetch, the status stays, and the
    completion callback is not invoked again.  A status at [ready] that no
    live run awaits is discarded like any other. *)
Theorem ready_is_final p r (es : list event) :
  reachable p -> stage_is r "ready" = true ->
  (poller p = InFlight ->
     status (run (step p (StatusArrived r)) es) = Some r /\
     count Fetch (run (step p (StatusArrived r)) es) = count Fetch p /\
     count Completed (run (step p (StatusArrived r)) es)
       = count Completed (step p (StatusArrived r)) /\
     ended (run (step p (StatusArrived r)) es)) /\
  (poller p <> InFlight -> step p (StatusArrived r) = p).
Proof.
  intros Hr Hready. split; [|apply status_dropped].
  intros Hp.
  destruct (ready_accepted p r Hr Hp Hready) as (Hs & Hf & _ & He).
  destruct (ended_run (step p (StatusArrived r)) es He)
    as (E0 & E1 & _ & E3 & E4).
  split; [congruence|]. split; [congruence|]. split; [done|]. exact E0.
Qed.

(** Over the whole life of a page the completion callback is invoked at
    most once; and once it has been, the polling has ended. *)
Theorem completed_at_most_once p :
  reachable p ->
  count Completed p = 0%nat \/ (count Completed p = 1%nat /\ ended p).
Proof.
  induction 1 as [tok Ht|p e Hr IH].
  - left. destruct (mount_spec tok Ht) as (_ & _ & _ & _ & _ & _ & _ & m8).
    unfold count. by rewrite m8.
  - apply reachable_consistent in Hr as Hc.
    destruct IH as [H0|[H1 He]].
    2:{ right. destruct (ended_step p e He) as (He' & _ & _ & _ & E4).
        split; [congruence|done]. }
    destruct e as [r|m| |o|o|]; simpl.
    + case_bool_decide as Hp; [|by left].
      destruct (polling_unshown p Hc (or_introl Hp)) as [Hs Hd].
      destruct (on_status_spec p r (has_token p Hc) Hs Hd)
        as (s1 & s2 & s3 & s4 & s5 & s6 & s7 & s8).
      rewrite (count_app Completed p (on_status r p) _ s8), H0.
      destruct (card_runs p r) eqn:Hrun; simpl; [|by left].
      destruct (stage_is r "ready") eqn:Hready; simpl; [|by left].
      right. split; [done|].
      pose proof (stage_is_exclusive r Hready) as Hn.
      rewrite Hn in s4, s6. simpl in s4, s6.
      split; [|done]. unfold quiet. rewrite s6. unfold shouldContinuePolling.
      rewrite Hready. auto.
    + case_bool_decide as Hp; [|by left].
      destruct (on_failure_spec p m Hc Hp) as (_ & _ & _ & _ & _ & f6).
      left. unfold count in *. by rewrite f6.
    + case_bool_decide as Hp; [|by left].
      left. rewrite (count_app Completed p (on_timer p) [Fetch] eq_refl).
      simpl. lia.
    + destruct (render p) as [| | |c| |] eqn:Hv; try by left.
      destruct (truthy_opt (token p) && _); [|by left].
      destruct (resume_spec p c Hc Hv) as (_ & _ & _ & _ & _ & _ & _ & _ & r9).
      left. rewrite (count_app Completed p (resume p) [Fetch] r9). simpl. lia.
    + destruct (render p) as [| | |c| |] eqn:Hv; try by left.
      destruct (truthy_opt (token p) && _); [|by left].
      destruct (resume_spec p c Hc Hv) as (_ & _ & _ & _ & _ & _ & _ & _ & r9).
      left. rewrite (count_app Completed p (resume p) [Fetch] r9). simpl. lia.
    + destruct (render p) as [| | | |s b|]; try by left.
      destruct (Progress.render s); [|by left].
      left. rewrite (count_app Completed p (emit [ErrorCallback] p)
                       [ErrorCallback] eq_refl).
      simpl. lia.
Qed.

(** No status and no failure makes the page fetch again by itself: an event
    issues at most one fetch, and only the timer or a clarification handler
    that resolved with success issues any.  So the fetches of a page are at
    most one more than the timer firings and resolutions it has seen. *)
Lemma fetch_only_when_due p e :
  reachable p ->
  (count Fetch (step p e) <= count Fetch p + if may_fetch e then 1 else 0)%nat.
Proof.
  intros Hr. apply reachable_consistent in Hr as Hc.
  destruct e as [r|m| |o|o|]; simpl.
  - case_bool_decide as Hp; [|lia].
    destruct (polling_unshown p Hc (or_introl Hp)) as [Hs Hd].
    destruct (on_status_spec p r (has_token p Hc) Hs Hd)
      as (_ & _ & _ & _ & _ & _ & _ & s8).
    rewrite (count_app Fetch p (on_status r p) _ s8).
    destruct (card_runs p r && stage_is r "ready"); simpl; lia.
  - case_bool_decide as Hp; [|lia].
    destruct (on_failure_spec p m Hc Hp) as (_ & _ & _ & _ & _ & f6).
    unfold count. rewrite f6. lia.
  - case_bool_decide as Hp; [|lia].
    rewrite (count_app Fetch p (on_timer p) [Fetch] eq_refl). simpl. lia.
  - destruct (render p) as [| | |c| |] eqn:Hv; try lia.
    destruct o as [x|res]; simpl; rewrite ?andb_false_r; try lia.
    destruct (submit_success res); rewrite ?andb_false_r; try lia.
    destruct (truthy_opt (token p)); simpl; [|lia].
    destruct (resume_spec p c Hc Hv) as (_ & _ & _ & _ & _ & _ & _ & _ & r9).
    rewrite (count_app Fetch p (resume p) [Fetch] r9). simpl. lia.
  - destruct (render p) as [| | |c| |] eqn:Hv; try lia.
    destruct o as [x|res]; simpl; rewrite ?andb_false_r; try lia.
    destruct (skip_success res); rewrite ?andb_false_r; try lia.
    destruct (truthy_opt (token p)); simpl; [|lia].
    destruct (resume_spec p c Hc Hv) as (_ & _ & _ & _ & _ & _ & _ & _ & r9).
    rewrite (count_app Fetch p (resume p) [Fetch] r9). simpl. lia.
  - destruct (render p) as [| | | |s b|]; try lia.
    destruct (Progress.render s); [|lia].
    rewrite (count_app Fetch p (emit [ErrorCallback] p) [ErrorCallback] eq_refl).
    simpl. lia.
Qed.

Lemma run_reachable p (es : list event) : reachable p -> reachable (run p es).
Proof.
  revert p. induction es as [|e es IH]; intros p Hr; [done|].
  simpl. apply IH. by apply reach_step.
Qed.

Theorem fetches_are_paced (tok : list N) (es : list event) :
  truthy_str tok = true ->
  (count Fetch (run (mount (Some tok)) es)
   <= 1 + length (List.filter may_fetch es))%nat.
Proof.
  intros Ht.
  assert (Hgen : forall p, reachable p ->
            (count Fetch (run p es)
             <= count Fetch p + length (List.filter may_fetch es))%nat).
  { induction es as [|e es IH]; intros p Hr; [simpl; lia|].
    pose proof (fetch_only_when_due p e Hr) as H1.
    pose proof (IH (step p e) (reach_step p e Hr)) as H2.
    simpl. destruct (may_fetch e); simpl in *; lia. }
  pose proof (Hgen (mount (Some tok)) (reach_mount tok Ht)) as H.
  destruct (mount_spec tok Ht) as (_ & _ & _ & _ & _ & _ & _ & m8).
  unfold count at 2 in H. rewrite m8 in H. simpl in H. lia.
Qed.

(** The cancel button is on the screen exactly while the next fetch is
    armed: under the progress view of the status that arrived, it is shown
    if and only if the timer is waiting. *)
Theorem cancel_button_iff_polling p r (b : bool) :
  reachable p -> poller p = InFlight ->
  render (step p (StatusArrived r)) = ProgressView r b ->
  (b = true <-> poller (step p (StatusArrived r)) = Waiting).
Proof.
  intros Hr Hp. apply reachable_consistent in Hr as Hc.
  rewrite (render_after_status p r Hr Hp).
  destruct (polling_unshown p Hc (or_introl Hp)) as [Hs Hd].
  destruct (on_status_spec p r (has_token p Hc) Hs Hd)
    as (_ & _ & _ & _ & _ & s6 & _).
  simpl. rewrite (bool_decide_eq_true_2 _ Hp), s6.
  unfold view_of_status, cancel_button, shouldContinuePolling.
  destruct (validationErrors r) as [[|v l]|]; try done.
  all: destruct (clarification r), (stage_is r "needs_clarification") eqn:Hn,
         (stage_is r "ready"), (has_error r), (card_runs p r);
    simpl; try done; intros [= <-]; split; done.
Qed.

End MorePageFacts.

(** ** The clarification form *)

Section ClarifyFacts.
Import Clarify.
Implicit Types (answers : gmap (list N) (list N))
  (entries : list (list N * list N)).

Lemma elem_of_answersArray entries (q v : list N) :
  {| questionId := q; answer := v |} ∈ answersArray entries <->
  (q, v) ∈ entries /\ filled v = true.
Proof.
  unfold answersArray. rewrite list_elem_of_In, in_map_iff. split.
  - intros ([k w] & [= -> ->] & Hin). apply filter_In in Hin as [Hin Hf].
    split; [by apply list_elem_of_In|done].
  - intros [Hin Hf]. exists (q, v). split; [done|].
    apply filter_In. split; [by apply list_elem_of_In|done].
Qed.

Lemma filter_fst_sublist entries (f : list N * list N -> bool) :
  sublist (List.map fst (List.filter f entries)) (List.map fst entries).
Proof.
  induction entries as [|kv rest IH]; simpl; [done|].
  destruct (f kv); simpl; [by apply sublist_skip|by apply sublist_cons].
Qed.

(** What is submitted, whatever the order in which the object lists its
    entries: exactly the answers that are not blank, one per question at
    most; as many as the count shown; and nothing at all, not even a call,
    exactly when every answer is blank, which is exactly when the count
    that disables the button is zero. *)
Theorem submitted_answers answers entries :
  entries ≡ₚ map_to_list answers ->
  (forall q v,
     {| questionId := q; answer := v |} ∈ answersArray entries <->
     answers !! q = Some v /\ filled v = true) /\
  NoDup (List.map questionId (answersArray entries)) /\
  length (answersArray entries) = answeredCount (List.map snd entries) /\
  (handleSubmit entries = None <->
     forall q v, answers !! q = Some v -> filled v = false) /\
  (handleSubmit entries = None <->
     answeredCount (List.map snd entries) = 0%nat) /\
  (forall answered, handleSubmit entries = Some answered ->
     answered = answersArray entries /\ answered <> []).
Proof.
  intros Hperm.
  assert (Hin : forall q v, (q, v) ∈ entries <-> answers !! q = Some v).
  { intros q v. rewrite Hperm. apply elem_of_map_to_list. }
  assert (Hcount : length (answersArray entries)
                   = answeredCount (List.map snd entries)).
  { unfold answersArray, answeredCount. rewrite length_map.
    clear. induction entries as [|kv rest IH]; simpl; [done|].
    destruct (filled (snd kv)); simpl; by rewrite IH. }
  assert (Hnone : handleSubmit entries = None <-> answersArray entries = []).
  { unfold handleSubmit. by destruct (answersArray entries). }
  split; [|split; [|split; [done|split; [|split]]]].
  - intros q v. rewrite elem_of_answersArray, Hin. done.
  - unfold answersArray. rewrite List.map_map. simpl.
    change (fun x : list N * list N => fst x) with (@fst (list N) (list N)).
    eapply sublist_NoDup; [|apply filter_fst_sublist].
    rewrite Hperm. apply NoDup_fst_map_to_list.
  - rewrite Hnone. split.
    + intros Hnil q v Hq. destruct (filled v) eqn:Hf; [|done].
      assert (Hel : {| questionId := q; answer := v |} ∈ answersArray entries).
      { apply elem_of_answersArray. by rewrite Hin. }
      rewrite Hnil in Hel. by apply elem_of_nil in Hel.
    + intros Hall. destruct (answersArray entries) as [|[q v] rest] eqn:E;
        [done|].
      assert (Hel : {| questionId := q; answer := v |} ∈ answersArray entries).
      { rewrite E. apply elem_of_cons. by left. }
      apply elem_of_answersArray in Hel as [Hq Hf].
      apply Hin in Hq. rewrite (Hall q v Hq) in Hf. done.
  - rewrite Hnone, <- Hcount. by destruct (answersArray entries).
  - unfold handleSubmit. intros answered.
    destruct (answersArray entries) eqn:E; [done|]. by intros [= <-].
Qed.

(** Typing or choosing again replaces the answer to that question and to
    no other: after the update the question is submitted with the new text
    if that is not blank and not at all if it is, and every other question
    is submitted as it would have been. *)
Theorem retyping_replaces answers entries (q value : list N) :
  entries ≡ₚ map_to_list (handleTextChange q value answers) ->
  (forall v, {| questionId := q; answer := v |} ∈ answersArray entries <->
             v = value /\ filled value = true) /\
  (forall q' v, q' <> q ->
     ({| questionId := q'; answer := v |} ∈ answersArray entries <->
      answers !! q' = Some v /\ filled v = true)) /\
  handleOptionSelect q value answers = handleTextChange q value answers.
Proof.
  intros Hperm.
  assert (Hin : forall k v, (k, v) ∈ entries <->
                  handleTextChange q value answers !! k = Some v).
  { intros k v. rewrite Hperm. apply elem_of_map_to_list. }
  unfold handleTextChange in Hin.
  split; [|split; [|done]].
  - intros v. rewrite elem_of_answersArray, Hin, lookup_insert_eq.
    split; [intros [[= <-] Hf]; done|intros [-> Hf]; done].
  - intros q' v Hne. rewrite elem_of_answersArray, Hin.
    by rewrite lookup_insert_ne.
Qed.

End ClarifyFacts.

(** ** The conversations directory *)

Section SidebarFacts.
Import Eff Sidebar.
Implicit Types (s : State).

Lemma elem_of_kept (target : list N) (l : list Conversation) c :
  c ∈ List.filter (fun c => negb (bool_decide (id c = target))) l <->
  c ∈ l /\ id c <> target.
Proof.
  rewrite !list_elem_of_In, filter_In, negb_true_iff, bool_decide_eq_false.
  done.
Qed.

Lemma kept_sublist (target : list N) (l : list Conversation) :
  sublist (List.filter (fun c => negb (bool_decide (id c = target))) l) l.
Proof.
  induction l as [|c l IH]; simpl; [done|].
  destruct (negb (bool_decide (id c = target)));
    [by apply sublist_skip|by apply sublist_cons].
Qed.

(** Deleting the conversation [target]: with no conversation marked for
    deletion no call is made and nothing changes.  When the call succeeds
    the list keeps, in their order, exactly the conversations with another
    identifier, the parent is told to deselect exactly when the deleted
    conversation was the selected one, and a success toast is shown.  When
    it fails the list and the selection stay untouched and the failure is
    toasted.  In both cases the mark is cleared and nothing is thrown. *)
Theorem handleDelete_spec (outcome : Api.exn + unit) s :
  (truthy_opt (deleteId s) = false ->
     handleDelete outcome s = (false, (inr tt, s))) /\
  (forall target, deleteId s = Some target -> truthy_str target = true ->
     exists s',
       handleDelete outcome s = (true, (inr tt, s')) /\
       deleteId s' = None /\ selectedId s' = selectedId s /\
       isLoading s' = isLoading s /\
       match outcome with
       | inr _ =>
           conversations s'
             = List.filter (fun c => negb (bool_decide (id c = target)))
                           (conversations s) /\
           (forall c, c ∈ conversations s' <->
                      c ∈ conversations s /\ id c <> target) /\
           sublist (conversations s') (conversations s) /\
           deselected s'
             = (deselected s
                + if bool_decide (selectedId s = Some target) then 1 else 0)%nat /\
           toasts s' = toasts s ++ [ToastDeleted]
       | inl _ =>
           conversations s' = conversations s /\
           deselected s' = deselected s /\
           toasts s' = toasts s ++ [ToastDeleteFailed]
       end).
Proof.
  split.
  - unfold handleDelete. destruct (deleteId s) as [t|]; simpl; [|done].
    by intros ->.
  - intros target Hd Ht. unfold handleDelete. rewrite Hd, Ht.
    cbv [finally catch mbind eff_bind bind settled mret eff_ret ret throw
         setConversations setDeleteId onSelect_null show_toast modify].
    destruct outcome as [e|[]]; simpl.
    + eexists. split; [reflexivity|]. simpl. done.
    + destruct (bool_decide (selectedId s = Some target)); simpl.
      all: eexists; split; [reflexivity|]; simpl.
      all: repeat split; try done; try lia.
      all: try apply kept_sublist.
      all: try (intros Hc; by apply elem_of_kept in Hc as [? ?]).
      all: try (intros [Hc Hf]; by apply elem_of_kept).
      all: match goal with H : _ ∈ List.filter _ _ |- _ =>
             by apply elem_of_kept in H as [? ?] end.
Qed.

End SidebarFacts.

(** ** The file picker *)

Section UploaderFacts.
Import Uploader.
Variable toLowerCase : list N -> list N.
Implicit Types (s : State) (file : File) (newFiles : list File).

Lemma scan_spec (selected todo validFiles : list File) err :
  scan toLowerCase selected todo validFiles err =
  (validFiles
     ++ List.filter (fun f => accepted toLowerCase f && negb (already_selected selected f))
                    todo,
   match last (List.filter (fun f => negb (accepted toLowerCase f)) todo) with
   | Some f => Some (rejection f)
   | None => err
   end).
Proof.
  revert validFiles err.
  induction todo as [|file rest IH]; intros validFiles err; simpl.
  - by rewrite app_nil_r.
  - destruct (accepted toLowerCase file) eqn:Ha; simpl.
    + destruct (already_selected selected file); simpl; rewrite IH; [done|].
      by rewrite <- app_assoc.
    + rewrite IH, last_cons.
      by destruct (last (List.filter (fun f => negb (accepted toLowerCase f)) rest)).
Qed.

Lemma handleFiles_files newFiles s :
  files (handleFiles toLowerCase newFiles s) =
  files s
    ++ List.filter (fun f => accepted toLowerCase f && negb (already_selected (files s) f))
                   newFiles.
Proof.
  unfold handleFiles. rewrite scan_spec. simpl.
  destruct (List.filter _ newFiles); simpl; [by rewrite app_nil_r|done].
Qed.

Lemma remove_at_sublist index (l : list File) : sublist (remove_at index l) l.
Proof.
  revert index. induction l as [|f l IH]; intros [|i]; simpl; try done.
  - by apply sublist_cons.
  - by apply sublist_skip.
Qed.

Lemma sublist_elem_of_l (l1 l2 : list File) file :
  sublist l1 l2 -> file ∈ l1 -> file ∈ l2.
Proof.
  induction 1 as [|x l1 l2 _ IH|x l1 l2 _ IH]; [done| |].
  - rewrite !elem_of_cons. intros [->|Hf]; [by left|right; by apply IH].
  - rewrite elem_of_cons. intros Hf. right. by apply IH.
Qed.

Lemma act_files (a : action) s :
  files (act toLowerCase s a) =
  match a with
  | Pick l | Drop l =>
      files s
        ++ List.filter
             (fun f => accepted toLowerCase f && negb (already_selected (files s) f)) l
  | Remove index => remove_at index (files s)
  end.
Proof.
  destruct a as [l|l|i]; simpl; [apply handleFiles_files| |done].
  unfold handleDrop. by rewrite handleFiles_files.
Qed.

(** A batch of picked files: the selection keeps what it had, in order,
    followed by the files of the batch that have an accepted extension and
    do not repeat the name and size of a file selected before, in the
    order of the batch; the message shown afterwards is that of the last
    file of the batch with another extension, and there is none when the
    batch has no such file, whatever message was shown before. *)
Theorem handleFiles_spec newFiles s :
  files (handleFiles toLowerCase newFiles s) =
    files s
      ++ List.filter
           (fun f => accepted toLowerCase f && negb (already_selected (files s) f))
           newFiles /\
  error (handleFiles toLowerCase newFiles s) =
    (rejection <$> last (List.filter (fun f => negb (accepted toLowerCase f)) newFiles)) /\
  (error (handleFiles toLowerCase newFiles s) = None <->
     forall f, f ∈ newFiles -> accepted toLowerCase f = true) /\
  isDragging (handleFiles toLowerCase newFiles s) = isDragging s.
Proof.
  split; [apply handleFiles_files|].
  assert (He : error (handleFiles toLowerCase newFiles s) =
    (rejection <$> last (List.filter (fun f => negb (accepted toLowerCase f)) newFiles))).
  { unfold handleFiles. rewrite scan_spec. simpl.
    by destruct (last _). }
  split; [done|]. split.
  - rewrite He. split.
    + intros Hnone f Hf. destruct (accepted toLowerCase f) eqn:Ha; [done|].
      assert (Hin : f ∈ List.filter (fun f => negb (accepted toLowerCase f)) newFiles).
      { apply list_elem_of_In, filter_In. split; [by apply list_elem_of_In|].
        by rewrite Ha. }
      destruct (List.filter (fun f => negb (accepted toLowerCase f)) newFiles)
        as [|g l] eqn:E; [by apply elem_of_nil in Hin|].
      destruct (last (g :: l)) eqn:El; [done|].
      by apply last_None in El.
    + intros Hall.
      destruct (List.filter (fun f => negb (accepted toLowerCase f)) newFiles)
        as [|g l] eqn:E; [done|].
      assert (Hin : In g (List.filter (fun f => negb (accepted toLowerCase f)) newFiles)).
      { rewrite E. by left. }
      apply filter_In in Hin as [Hin Hna].
      rewrite (Hall g) in Hna by (by apply list_elem_of_In). done.
  - unfold handleFiles. by destruct (scan _ _ _ _ _).
Qed.

(** Whatever the visitor picks, drops and removes, every file in the
    selection has an accepted extension; so the files handed over on
    submit, when any are, are a non-empty list of accepted files. *)
Theorem only_accepted_files_selected (actions : list action) :
  let s := foldl (act toLowerCase) initial actions in
  Forall (fun f => accepted toLowerCase f = true) (files s) /\
  (forall selected, handleSubmit s = Some selected ->
     selected = files s /\ selected <> [] /\
     Forall (fun f => accepted toLowerCase f = true) selected) /\
  (handleSubmit s = None <-> files s = []).
Proof.
  simpl.
  assert (Hinv : forall s, Forall (fun f => accepted toLowerCase f = true) (files s) ->
            Forall (fun f => accepted toLowerCase f = true) (files (foldl (act toLowerCase) s actions))).
  { induction actions as [|a rest IH]; intros s Hs; simpl; [done|].
    apply IH. rewrite act_files. destruct a as [l|l|i].
    1,2: apply Forall_app; split; [done|]; apply Forall_forall;
         intros f Hf; apply list_elem_of_In, filter_In in Hf as [_ Hf];
         by apply andb_true_iff in Hf as [? _].
    apply Forall_forall. intros f Hf. rewrite Forall_forall in Hs.
    apply Hs. eapply sublist_elem_of_l; [apply remove_at_sublist|done]. }
  specialize (Hinv initial (Forall_nil_2 _)).
  split; [done|]. unfold handleSubmit.
  destruct (files (foldl (act toLowerCase) initial actions)) as [|f l] eqn:E.
  - split; [done|]. done.
  - split; [|done]. by intros selected [= <-].
Qed.

(** The guard against duplicates compares a new file with the files
    selected before the batch only.  When no batch names the same file
    (by name and size) twice, no file is ever selected twice; but an
    accepted toLowerCase file that occurs twice in one batch is selected twice. *)
Theorem duplicates_only_within_a_batch (actions : list action) :
  Forall (fun a => match a with
                   | Pick l | Drop l =>
                       NoDup (List.map (fun f => (name f, size f)) l)
                   | Remove _ => True
                   end) actions ->
  NoDup (List.map (fun f => (name f, size f))
                  (files (foldl (act toLowerCase) initial actions))) /\
  (forall file, accepted toLowerCase file = true ->
     files (handleFiles toLowerCase [file; file] initial) = [file; file]).
Proof.
  intros Hb. split.
  - assert (Hinv : forall s,
      NoDup (List.map (fun f => (name f, size f)) (files s)) ->
      NoDup (List.map (fun f => (name f, size f))
                      (files (foldl (act toLowerCase) s actions)))).
    { induction Hb as [|a rest Ha _ IH]; intros s Hs; simpl; [done|].
      apply IH. rewrite act_files.
      assert (Hadd : forall l,
        NoDup (List.map (fun f => (name f, size f)) l) ->
        NoDup (List.map (fun f => (name f, size f))
          (files s ++ List.filter
             (fun f => accepted toLowerCase f && negb (already_selected (files s) f)) l))).
      { intros l Hl. rewrite List.map_app. apply NoDup_app.
        split; [done|]. split.
        - intros k Hk Hk'.
          apply list_elem_of_In, in_map_iff in Hk as (g & <- & Hg).
          apply list_elem_of_In, in_map_iff in Hk' as (f & Hkey & Hf).
          apply filter_In in Hf as [_ Hf].
          apply andb_true_iff in Hf as [_ Hf].
          apply negb_true_iff in Hf.
          assert (Hsel : already_selected (files s) f = true).
          { apply existsb_exists. exists g. split; [done|].
            injection Hkey as Hn Hz.
            by rewrite !bool_decide_eq_true_2. }
          congruence.
        - eapply sublist_NoDup; [exact Hl|].
          apply (fmap_sublist (fun f => (name f, size f))).
          clear. induction l as [|f l IH]; simpl; [done|].
          destruct (_ && _); [by apply sublist_skip|by apply sublist_cons]. }
      destruct a as [l|l|i]; [by apply Hadd|by apply Hadd|].
      eapply sublist_NoDup; [exact Hs|].
      apply (fmap_sublist (fun f => (name f, size f))).
      apply remove_at_sublist. }
    apply Hinv. simpl. apply NoDup_nil_2.
  - intros file Ha. rewrite handleFiles_files. simpl. by rewrite Ha.
Qed.

(** Removing the file at an index: the files before it stay where they
    were and the files after it move up by one; an index past the end
    removes nothing. *)
Theorem removeFile_spec (index : nat) s :
  (forall j, files (removeFile index s) !! j =
             if (j <? index)%nat then files s !! j else files s !! S j) /\
  length (files (removeFile index s)) =
    (if (index <? length (files s))%nat then length (files s) - 1
     else length (files s))%nat /\
  ((length (files s) <= index)%nat -> removeFile index s = s) /\
  error (removeFile index s) = error s.
Proof.
  unfold removeFile. simpl.
  assert (Hl : forall l i j, remove_at i l !! j =
             if (j <? i)%nat then l !! j else l !! S j).
  { induction l as [|f l IH]; intros [|i] [|j]; simpl; try done.
    all: try by destruct (_ <? _)%nat.
    by rewrite IH. }
  assert (Hn : forall l i, length (remove_at i l) =
     (if (i <? length l)%nat then length l - 1 else length l)%nat).
  { induction l as [|f l IH]; intros [|i]; simpl; try done; [lia|].
    rewrite IH. change (S i <? S (length l))%nat with (i <? length l)%nat.
    destruct (i <? length l)%nat eqn:E; [|done].
    apply Nat.ltb_lt in E. lia. }
  assert (Hid : forall l i, (length l <= i)%nat -> remove_at i l = l).
  { induction l as [|f l IH]; intros [|i] Hle; simpl in *; try done; [lia|].
    rewrite IH by lia. done. }
  split; [intros j; apply Hl|]. split; [apply Hn|]. split; [|done].
  intros Hle. rewrite Hid by done. by destruct s.
Qed.

End UploaderFacts.

(** ** The added facts at sample inputs *)

Lemma view_is_of_latest_status_witness :
  Page.render (Page.step Samples.mounted (Page.StatusArrived Samples.scenario_A))
  = Lifetime.view_of_status Samples.scenario_A.
Proof.
  destruct (view_is_of_latest_status Samples.mounted Samples.scenario_A
              mounted_reachable) as [H _].
  apply H. vm_compute; reflexivity.
Defined.

Lemma transport_failure_ends_polling_witness :
  Page.count Page.Fetch
    (Page.run (Page.step Samples.mounted (Page.StatusFailed (lit "Network down")))
       [Page.TimerFired; Page.RetryClicked])
  = Page.count Page.Fetch Samples.mounted.
Proof.
  destruct (transport_failure_ends_polling Samples.mounted (lit "Network down")
              [Page.TimerFired; Page.RetryClicked] mounted_reachable)
    as [H _].
  destruct (H ltac:(vm_compute; reflexivity)) as (_ & _ & Hf & _).
  exact Hf.
Defined.

Lemma ready_is_final_witness :
  Page.count Page.Fetch
    (Page.run (Page.step Samples.mounted
                 (Page.StatusArrived (Samples.at_stage (lit "ready"))))
       [Page.TimerFired])
  = Page.count Page.Fetch Samples.mounted.
Proof.
  destruct (ready_is_final Samples.mounted (Samples.at_stage (lit "ready"))
              [Page.TimerFired]
              mounted_reachable ltac:(vm_compute; reflexivity))
    as [H _].
  destruct (H ltac:(vm_compute; reflexivity)) as (_ & Hf & _).
  exact Hf.
Defined.

Lemma completed_at_most_once_witness :
  let p := Page.step Samples.mounted
             (Page.StatusArrived (Samples.at_stage (lit "ready"))) in
  Page.count Page.Completed p = 0%nat \/
  (Page.count Page.Completed p = 1%nat /\ Lifetime.ended p).
Proof.
  apply completed_at_most_once.
  apply Page.reach_step, mounted_reachable.
Defined.

Lemma fetches_are_paced_witness :
  (Page.count Page.Fetch
     (Page.run (Page.mount (Some (lit "t")))
        [Page.StatusArrived Samples.scenario_A; Page.TimerFired])
   <= 1 + 1)%nat.
Proof.
  apply (fetches_are_paced (lit "t")
           [Page.StatusArrived Samples.scenario_A; Page.TimerFired]).
  vm_compute; reflexivity.
Defined.

Lemma cancel_button_iff_polling_witness :
  Page.poller (Page.step Samples.mounted (Page.StatusArrived Samples.scenario_A))
  = Page.Waiting.
Proof.
  apply (cancel_button_iff_polling Samples.mounted Samples.scenario_A true
           mounted_reachable ltac:(vm_compute; reflexivity)
           ltac:(vm_compute; reflexivity)).
  reflexivity.
Defined.

Lemma submitted_answers_witness :
  Clarify.handleSubmit (map_to_list MoreSamples.two_answers) <> None /\
  forall v,
    {| Clarify.questionId := lit "q2"; Clarify.answer := v |}
      ∉ Clarify.answersArray (map_to_list MoreSamples.two_answers).
Proof.
  destruct (submitted_answers MoreSamples.two_answers
              (map_to_list MoreSamples.two_answers) ltac:(reflexivity))
    as (Hin & _ & _ & Hnone & _).
  split.
  - intros H. rewrite Hnone in H.
    specialize (H (lit "q1") (lit "POS") ltac:(vm_compute; reflexivity)).
    vm_compute in H. discriminate H.
  - intros v Hv. apply Hin in Hv as [Hq Hf].
    unfold MoreSamples.two_answers, Clarify.handleTextChange in Hq.
    rewrite lookup_insert_eq in Hq. injection Hq as <-.
    vm_compute in Hf. discriminate Hf.
Defined.

Lemma retyping_replaces_witness :
  {| Clarify.questionId := lit "q1"; Clarify.answer := lit "POS" |}
    ∈ Clarify.answersArray (map_to_list MoreSamples.two_answers) /\
  {| Clarify.questionId := lit "q2"; Clarify.answer := lit "  " |}
    ∉ Clarify.answersArray (map_to_list MoreSamples.two_answers).
Proof.
  unfold MoreSamples.two_answers.
  destruct (retyping_replaces
              (Clarify.handleOptionSelect (lit "q1") (lit "POS") ∅)
              _ (lit "q2") (lit "  ") (Permutation_refl _)) as (H & H' & _).
  split.
  - apply H'; [by vm_compute|]. split; [|by vm_compute].
    unfold Clarify.handleOptionSelect. apply lookup_insert_eq.
  - intros Hv. apply H in Hv as [_ Hf]. vm_compute in Hf. discriminate Hf.
Defined.

Lemma duplicates_only_within_a_batch_witness :
  NoDup (List.map (fun f => (Uploader.name f, Uploader.size f))
           (Uploader.files
              (foldl (Uploader.act Uploader.ascii_lower) Uploader.initial
                 MoreSamples.picks))).
Proof.
  apply (duplicates_only_within_a_batch Uploader.ascii_lower MoreSamples.picks).
  repeat first [apply Forall_nil_2 | apply Forall_cons; split]; simpl;
    try done.
  all: apply (bool_decide_unpack _); vm_compute; reflexivity.
Defined.
